(** * OpenGL capability detection (ui/gl/gl_detection.cpp)

    A shallow embedding of the crash guard, the capability probe and the
    persisted ANGLE backend preference of [Ui::GL], together with the
    properties stated about them.

    What the C++ code keeps in globals, function-local statics, the process
    environment and files is gathered in one [Process] record that every
    operation takes and returns. Everything the code asks Qt, the driver or
    the host application is read from a [System] record. *)

From Stdlib Require Import ZArith Ascii.
From stdpp Require Import gmap strings.

Local Open Scope string_scope.
Local Open Scope Z_scope.
Local Open Scope list_scope.

(** ** Files

    [QFile] as the code uses it: existence test, open for writing (which
    creates or truncates), write, open for reading, bounded read, remove.
    A path can refuse each of the three kinds of access; the code checks the
    result of [open] and ignores the result of [remove]. *)

Record Disk := {
  files : gmap string string;
  unwritable : gset string;
  unreadable : gset string;
  undeletable : gset string;
}.

Definition with_files (m : gmap string string) (d : Disk) : Disk :=
  {| files := m; unwritable := unwritable d;
     unreadable := unreadable d; undeletable := undeletable d |}.

Definition isEmpty (s : string) : bool := bool_decide (s = "").

(** [QFile::exists(path)] *)
Definition QFile_exists (path : string) (d : Disk) : bool :=
  bool_decide (is_Some (files d !! path)).

(** [QFile(path).open(QIODevice::WriteOnly)]: [None] when the open fails,
    otherwise the disk with the file created or truncated. *)
Definition QFile_open_WriteOnly (path : string) (d : Disk) : option Disk :=
  if isEmpty path || bool_decide (path ∈ unwritable d) then None
  else Some (with_files (<[path := ""]> (files d)) d).

(** [f.write(bytes)] on a file opened by [QFile_open_WriteOnly]. *)
Definition QFile_write (path bytes : string) (d : Disk) : Disk :=
  with_files (<[path := default "" (files d !! path) +:+ bytes]> (files d)) d.

(** [QFile(path).open(QIODevice::ReadOnly)]: the content when it succeeds. *)
Definition QFile_open_ReadOnly (path : string) (d : Disk) : option string :=
  if isEmpty path || bool_decide (path ∈ unreadable d) then None
  else files d !! path.

(** [f.read(maxlen)] from the start of a file. *)
Definition QFile_read (maxlen : nat) (content : string) : string :=
  String.substring 0 maxlen content.

(** [QFile::remove(path)]: the returned flag and the disk afterwards. *)
Definition QFile_remove (path : string) (d : Disk) : bool * Disk :=
  if QFile_exists path d && negb (bool_decide (path ∈ undeletable d))
  then (true, with_files (delete path (files d)) d)
  else (false, d).

(** The store works at [path]: no access to it is refused. *)
Definition accessible (path : string) (d : Disk) : bool :=
  negb (isEmpty path)
  && bool_decide (path ∉ unwritable d)
  && bool_decide (path ∉ unreadable d)
  && bool_decide (path ∉ undeletable d).

(** ** Data of the probe *)

Module QSurfaceFormat.

Inductive OpenGLContextProfile := NoProfile | CoreProfile | CompatibilityProfile.

Inductive RenderableType := DefaultRenderableType | OpenGL | OpenGLES | OpenVG.

Record t := {
  alphaBufferSize : Z;
  profile : OpenGLContextProfile;
  renderableType : RenderableType;
  majorVersion : Z;
  minorVersion : Z;
}.

(** [QSurfaceFormat()] as Qt documents it: sizes unset, no profile, the
    default renderable type, version 2.0. *)
Definition default : t :=
  {| alphaBufferSize := -1; profile := NoProfile;
     renderableType := DefaultRenderableType;
     majorVersion := 2; minorVersion := 0 |}.

Definition setAlphaBufferSize (size : Z) (f : t) : t :=
  {| alphaBufferSize := size; profile := profile f;
     renderableType := renderableType f;
     majorVersion := majorVersion f; minorVersion := minorVersion f |}.

End QSurfaceFormat.

Module ANGLE.

(** Modelled from the spec: the declaration of [enum class ANGLE] is in
    ui/gl/gl_detection.h, which is not part of the sources at hand; the
    enumerators are the five the code names. *)
Inductive t := Auto | D3D9 | D3D11 | D3D11on12 | OpenGL.

#[global] Instance eq_dec : EqDecision t.
Proof. solve_decision. Defined.

Definition all : list t := [Auto; D3D9; D3D11; D3D11on12; OpenGL].

End ANGLE.

(** Modelled from the spec: [struct Capabilities] is declared in
    ui/gl/gl_detection.h, which is not part of the sources at hand. It has
    the two flags [supported] and [transparency]; [return {}] yields the
    zero value, both flags false. *)
Record Capabilities := { supported : bool; transparency : bool }.

Definition zero : Capabilities := {| supported := false; transparency := false |}.

(** The target widget, reduced to what the probe asks its window. *)
Record QWidget := {
  windowHandle : bool;
  windowHandle_after_createWinId : bool;
  supportsOpenGL : bool;
  format : QSurfaceFormat.t;
}.

(** The context of the tester widget, reduced to what the probe asks it. *)
Record QOpenGLContext := {
  isValid : bool;
  NPOTTextures : bool;
  Framebuffers : bool;
  Shaders : bool;
  isLinked : bool;
  context_format : QSurfaceFormat.t;
  GL_RENDERER : option string;
  GL_VENDOR : option string;
  GL_VERSION : option string;
  extensions : list string;
}.

(** What [tester.grabFramebuffer()] can do to the caller. *)
Inductive Materialized :=
| Initialized (context : option QOpenGLContext)
| Throws
| Crashes.

Record System := {
  Q_OS_WIN : bool;
  openglCheckFilePath : string;
  angleBackendFilePath : string;
  gpu_driver_bug_list : bool;
  grabFramebuffer : QSurfaceFormat.t -> Materialized;
  platformNativeInterface : bool;
  egldisplay : option string;
}.

(** Log lines keep the template and its [.arg(...)] values apart. *)
Inductive Value :=
| Str (s : string)
| Fmt (template : string) (numbers : list Z).

Record Text := { template : string; args : list Value }.

(** Observation only: the calls made around the risky step, in order. No
    operation reads this field. *)
Inductive Call := CallCrashCheckStart | CallGrabFramebuffer | CallCrashCheckFinish.

#[global] Instance Call_eq_dec : EqDecision Call.
Proof. solve_decision. Defined.

Record Process := {
  disk : Disk;
  environ : gmap string string;
  ForceDisabled : bool;
  ResolvedANGLE : ANGLE.t;
  statics : gset nat;
  log : list Text;
  calls : list Call;
}.

Definition with_disk (d : Disk) (p : Process) : Process :=
  {| disk := d; environ := environ p; ForceDisabled := ForceDisabled p;
     ResolvedANGLE := ResolvedANGLE p; statics := statics p;
     log := log p; calls := calls p |}.

Definition with_environ (e : gmap string string) (p : Process) : Process :=
  {| disk := disk p; environ := e; ForceDisabled := ForceDisabled p;
     ResolvedANGLE := ResolvedANGLE p; statics := statics p;
     log := log p; calls := calls p |}.

Definition with_ForceDisabled (b : bool) (p : Process) : Process :=
  {| disk := disk p; environ := environ p; ForceDisabled := b;
     ResolvedANGLE := ResolvedANGLE p; statics := statics p;
     log := log p; calls := calls p |}.

Definition with_ResolvedANGLE (a : ANGLE.t) (p : Process) : Process :=
  {| disk := disk p; environ := environ p; ForceDisabled := ForceDisabled p;
     ResolvedANGLE := a; statics := statics p;
     log := log p; calls := calls p |}.

Definition with_statics (s : gset nat) (p : Process) : Process :=
  {| disk := disk p; environ := environ p; ForceDisabled := ForceDisabled p;
     ResolvedANGLE := ResolvedANGLE p; statics := s;
     log := log p; calls := calls p |}.

Definition with_log (l : list Text) (p : Process) : Process :=
  {| disk := disk p; environ := environ p; ForceDisabled := ForceDisabled p;
     ResolvedANGLE := ResolvedANGLE p; statics := statics p;
     log := l; calls := calls p |}.

Definition with_calls (c : list Call) (p : Process) : Process :=
  {| disk := disk p; environ := environ p; ForceDisabled := ForceDisabled p;
     ResolvedANGLE := ResolvedANGLE p; statics := statics p;
     log := log p; calls := c |}.

(** A process that has just started on disk [d] with environment [e]:
    globals hold their initial values, no static is initialised. *)
Definition start (e : gmap string string) (d : Disk) : Process :=
  {| disk := d; environ := e; ForceDisabled := false;
     ResolvedANGLE := ANGLE.Auto; statics := ∅; log := []; calls := [] |}.

(** The next run after [p] ended, however it ended: only the disk is kept. *)
Definition next_run (e : gmap string string) (p : Process) : Process :=
  start e (disk p).

Definition LOG (line : Text) (p : Process) : Process :=
  with_log (log p ++ [line]) p.

(** [LOG_ONCE(x)] at source line [site]: a function-local static that logs
    when control first passes it. *)
Definition LOG_ONCE (site : nat) (line : Text) (p : Process) : Process :=
  if bool_decide (site ∈ statics p) then p
  else LOG line (with_statics ({[site]} ∪ statics p) p).

Definition called (c : Call) (p : Process) : Process :=
  with_calls (calls p ++ [c]) p.

Definition qputenv (name value : string) (p : Process) : Process :=
  with_environ (<[name := value]> (environ p)) p.

Definition qunsetenv (name : string) (p : Process) : Process :=
  with_environ (delete name (environ p)) p.

(** How a call ends: it returns, an exception leaves it, or the process is
    gone. The process record is the state at that moment. *)
Inductive Death := DriverCrash | AssertFailed (what : string) | Unexpected (what : string).

Inductive Completion (A : Type) :=
| Returns (a : A) (p : Process)
| Propagates (p : Process)
| Dies (why : Death) (p : Process).

Arguments Returns {A} a p.
Arguments Propagates {A} p.
Arguments Dies {A} why p.

Definition final {A} (c : Completion A) : Process :=
  match c with
  | Returns _ p | Propagates p | Dies _ p => p
  end.

Definition returned {A} (c : Completion A) : option A :=
  match c with
  | Returns a _ => Some a
  | _ => None
  end.

(** ** Crash guard *)

Definition CrashCheckStart (s : System) (p : Process) : Process :=
  let p := called CallCrashCheckStart p in
  let f := openglCheckFilePath s in
  match QFile_open_WriteOnly f (disk p) with
  | Some d => with_disk (QFile_write f "1" d) p
  | None => p
  end.

Definition LastCrashCheckFailed (s : System) (p : Process) : bool :=
  QFile_exists (openglCheckFilePath s) (disk p).

Definition CrashCheckFinish (s : System) (p : Process) : Process :=
  let p := called CallCrashCheckFinish p in
  with_disk (QFile_remove (openglCheckFilePath s) (disk p)).2 p.

Definition ForceDisable (disable : bool) (p : Process) : Process :=
  with_ForceDisabled disable p.

(** ** Capability probe *)

Definition say (template : string) : Text := {| template := template; args := [] |}.

Definition say1 (template : string) (a : Value) : Text :=
  {| template := template; args := [a] |}.

(** [QByteArray::split(sep)] *)
Fixpoint QByteArray_split (sep : ascii) (s : string) : list string :=
  match s with
  | EmptyString => [""]
  | String c rest =>
      if bool_decide (c = sep) then "" :: QByteArray_split sep rest
      else match QByteArray_split sep rest with
           | head :: tail => String c head :: tail
           | [] => [String c ""]
           end
  end.

(** [EGLExtensions(context)]: the assertion on the native interface, then
    the extension string of the display split at blanks, or nothing when
    there is no display. *)
Definition EGLExtensions (s : System) (p : Process) : Completion (list string) :=
  if negb (platformNativeInterface s)
  then Dies (AssertFailed "native != nullptr") p
  else Returns (match egldisplay s with
                | Some names => QByteArray_split " "%char names
                | None => []
                end) p.

(** Line 53: the static [BugListInited]. *)
Definition BugListInited (s : System) (p : Process) : Process :=
  if bool_decide (53%nat ∈ statics p) then p
  else
    let p := with_statics ({[53%nat]} ∪ statics p) p in
    if negb (gpu_driver_bug_list s) then p
    else qputenv "QT_OPENGL_BUGLIST" ":/misc/gpu_driver_bug_list.json"
           (LOG (say "OpenGL: Using custom 'gpu_driver_bug_list.json'.") p).

(** Lines 62-80: the format asked for, or the early return of a widget whose
    window cannot be used. *)
Definition requested (widget : option QWidget) (p : Process)
  : QSurfaceFormat.t + Process :=
  match widget with
  | Some w =>
      if negb (windowHandle w || windowHandle_after_createWinId w)
      then inr (LOG (say "OpenGL: Could not create window for widget.") p)
      else if negb (supportsOpenGL w)
      then inr (LOG_ONCE 72 (say "OpenGL: Not supported for window.") p)
      else inl (QSurfaceFormat.setAlphaBufferSize 8 (format w))
  | None => inl (QSurfaceFormat.setAlphaBufferSize 8 QSurfaceFormat.default)
  end.

Definition or_nullptr (s : option string) : Value := Str (default "[nullptr]" s).

(** Lines 146-171: the static [extensionsLogged]. *)
Definition extensionsLogged (s : System) (context : QOpenGLContext) (p : Process)
  : Completion unit :=
  if bool_decide (146%nat ∈ statics p) then Returns tt p
  else
    let p := LOG (say1 "OpenGL Renderer: %1" (or_nullptr (GL_RENDERER context))) p in
    let p := LOG (say1 "OpenGL Vendor: %1" (or_nullptr (GL_VENDOR context))) p in
    let p := LOG (say1 "OpenGL Version: %1" (or_nullptr (GL_VERSION context))) p in
    let p := LOG (say1 "OpenGL Extensions: %1"
                    (Str (String.concat ", " (extensions context)))) p in
    if Q_OS_WIN s then
      match EGLExtensions s p with
      | Returns egllist p =>
          Returns tt
            (with_statics ({[146%nat]} ∪ statics p)
               (LOG (say1 "EGL Extensions: %1" (Str (String.concat ", " egllist))) p))
      | Propagates p => Propagates p
      | Dies why p => Dies why p
      end
    else Returns tt (with_statics ({[146%nat]} ∪ statics p) p).

(** Lines 99-185: the checks on a valid context. The format the source
    calls [supported] is [negotiated] here. *)
Definition CheckContext (s : System) (context : QOpenGLContext) (p : Process)
  : Completion Capabilities :=
  if negb (NPOTTextures context)
  then Returns zero (LOG_ONCE 102 (say "OpenGL: NPOT textures not supported.") p)
  else if negb (Framebuffers context)
  then Returns zero (LOG_ONCE 105 (say "OpenGL: Framebuffers not supported.") p)
  else if negb (Shaders context)
  then Returns zero (LOG_ONCE 108 (say "OpenGL: Shaders not supported.") p)
  else if negb (isLinked context)
  then Returns zero (LOG_ONCE 123 (say "OpenGL: Could not link simple shader.") p)
  else
    let negotiated := context_format context in
    let profiled : Process + Process :=
      match QSurfaceFormat.profile negotiated with
      | QSurfaceFormat.NoProfile =>
          match QSurfaceFormat.renderableType negotiated with
          | QSurfaceFormat.OpenGLES =>
              inl (LOG_ONCE 132 (say "OpenGL Profile: OpenGLES.") p)
          | _ => inr (LOG_ONCE 134 (say "OpenGL Profile: None.") p)
          end
      | QSurfaceFormat.CoreProfile =>
          inl (LOG_ONCE 139 (say "OpenGL Profile: Core.") p)
      | QSurfaceFormat.CompatibilityProfile =>
          inl (LOG_ONCE 142 (say "OpenGL Profile: Compatibility.") p)
      end in
    match profiled with
    | inr p => Returns zero p
    | inl p =>
        match extensionsLogged s context p with
        | Propagates p => Propagates p
        | Dies why p => Dies why p
        | Returns _ p =>
            let version :=
              Fmt "%1.%2" [QSurfaceFormat.majorVersion negotiated;
                           QSurfaceFormat.majorVersion negotiated] in
            let result := {| supported := true; transparency := false |} in
            if 8 <=? QSurfaceFormat.alphaBufferSize negotiated
            then Returns {| supported := supported result; transparency := true |}
                   (LOG_ONCE 179
                      (say1 "OpenGL: QOpenGLContext created, version: %1." version) p)
            else Returns result
                   (LOG_ONCE 182
                      (say1 "OpenGL: QOpenGLContext without alpha created, version: %1"
                         version) p)
        end
    end.

Definition CheckCapabilities (s : System) (widget : option QWidget) (p : Process)
  : Completion Capabilities :=
  if ForceDisabled p
  then Returns zero (LOG_ONCE 49 (say "OpenGL: Force-disabled.") p)
  else
    let p := BugListInited s p in
    match requested widget p with
    | inr p => Returns zero p
    | inl format =>
        let p := CrashCheckStart s p in
        let p := called CallGrabFramebuffer p in
        match grabFramebuffer s format with
        | Crashes => Dies DriverCrash p
        | Throws => Propagates p
        | Initialized context =>
            let p := CrashCheckFinish s p in
            match context with
            | Some context =>
                if isValid context then CheckContext s context p
                else Returns zero
                       (LOG_ONCE 96 (say "OpenGL: Could not create widget in a window.") p)
            | None =>
                Returns zero
                  (LOG_ONCE 96 (say "OpenGL: Could not create widget in a window.") p)
            end
        end
    end.

(** ** ANGLE backend preference (Windows only) *)

Definition DESKTOP_APP_QT_ANGLE_PLATFORM : string := "DESKTOP_APP_QT_ANGLE_PLATFORM".

(** The lambda [check] of [ConfigureANGLE]. *)
Definition check (bytes : string) (backend : string) (angle : ANGLE.t) (p : Process)
  : Process :=
  if String.prefix backend bytes
  then qputenv DESKTOP_APP_QT_ANGLE_PLATFORM backend (with_ResolvedANGLE angle p)
  else p.

Definition unknown_backend (bytes : string) : Text :=
  say1 "ANGLE Warning: Unknown backend: %1" (Str bytes).

Definition ConfigureANGLE (s : System) (p : Process) : Process :=
  let p := qunsetenv DESKTOP_APP_QT_ANGLE_PLATFORM p in
  let path := angleBackendFilePath s in
  if isEmpty path then p
  else
    match QFile_open_ReadOnly path (disk p) with
    | None => p
    | Some content =>
        let bytes := QFile_read 32 content in
        let p := check bytes "gl" ANGLE.OpenGL p in
        let p := check bytes "d3d9" ANGLE.D3D9 p in
        let p := check bytes "d3d11" ANGLE.D3D11 p in
        let p := check bytes "d3d11on12" ANGLE.D3D11on12 p in
        if bool_decide (ResolvedANGLE p = ANGLE.Auto)
        then LOG (unknown_backend bytes) p
        else p
    end.

Definition CurrentANGLE (p : Process) : ANGLE.t := ResolvedANGLE p.

(** The token [ChangeANGLE] writes for a backend; [Auto] has none. *)
Definition token (a : ANGLE.t) : option string :=
  match a with
  | ANGLE.Auto => None
  | ANGLE.D3D9 => Some "d3d9"
  | ANGLE.D3D11 => Some "d3d11"
  | ANGLE.D3D11on12 => Some "d3d11on12"
  | ANGLE.OpenGL => Some "gl"
  end.

(** The lambda [write] of [ChangeANGLE]. *)
Definition write (path : string) (backend : string) (p : Process) : Process :=
  match QFile_open_WriteOnly path (disk p) with
  | None => LOG (say1 "ANGLE Warning: Could not write to %1." (Str path)) p
  | Some d => with_disk (QFile_write path backend d) p
  end.

Section Switch.

(** The integer behind each enumerator. The declaration is not at hand, so
    the numbering is left open; the [switch] of [ChangeANGLE] compares the
    argument with these numbers and has a [default] for all others. *)
Variable underlying : ANGLE.t → Z.

Definition ChangeANGLE (s : System) (backend : Z) (p : Process) : Completion unit :=
  let path := angleBackendFilePath s in
  if backend =? underlying ANGLE.Auto
  then Returns tt (with_disk (QFile_remove path (disk p)).2 p)
  else if backend =? underlying ANGLE.D3D9 then Returns tt (write path "d3d9" p)
  else if backend =? underlying ANGLE.D3D11 then Returns tt (write path "d3d11" p)
  else if backend =? underlying ANGLE.D3D11on12
  then Returns tt (write path "d3d11on12" p)
  else if backend =? underlying ANGLE.OpenGL then Returns tt (write path "gl" p)
  else Dies (Unexpected "ANGLE backend value.") p.

End Switch.

(** Enumerators numbered in the order given, from 0. *)
Definition in_order (a : ANGLE.t) : Z :=
  match a with
  | ANGLE.Auto => 0
  | ANGLE.D3D9 => 1
  | ANGLE.D3D11 => 2
  | ANGLE.D3D11on12 => 3
  | ANGLE.OpenGL => 4
  end.

(** ** Sample systems and disks used by the examples below *)

Definition full_context (alpha : Z) : QOpenGLContext :=
  {| isValid := true; NPOTTextures := true; Framebuffers := true;
     Shaders := true; isLinked := true;
     context_format :=
       {| QSurfaceFormat.alphaBufferSize := alpha;
          QSurfaceFormat.profile := QSurfaceFormat.CoreProfile;
          QSurfaceFormat.renderableType := QSurfaceFormat.OpenGL;
          QSurfaceFormat.majorVersion := 4;
          QSurfaceFormat.minorVersion := 6 |};
     GL_RENDERER := Some "renderer"; GL_VENDOR := Some "vendor";
     GL_VERSION := Some "4.6"; extensions := ["GL_ARB_framebuffer_object"] |}.

Definition machine (grab : Materialized) : System :=
  {| Q_OS_WIN := true;
     openglCheckFilePath := "tdata/opengl_crash_check";
     angleBackendFilePath := "tdata/angle_backend";
     gpu_driver_bug_list := false;
     grabFramebuffer := fun _ => grab;
     platformNativeInterface := true;
     egldisplay := Some "EGL_EXT_create_context_robustness EGL_KHR_create_context" |}.

Definition healthy : System := machine (Initialized (Some (full_context 8))).

Definition disk_of (m : gmap string string) : Disk :=
  {| files := m; unwritable := ∅; unreadable := ∅; undeletable := ∅ |}.

Definition blank : Disk := disk_of ∅.

Definition fresh : Process := start ∅ blank.

(** One closed bracket of the guard. *)
Definition guarded_cycle (s : System) (p : Process) : Process :=
  CrashCheckFinish s (CrashCheckStart s p).

(** The format check of lines 129-137 that ends the probe: no profile and
    not OpenGL ES. *)
Definition unprofiled (context : QOpenGLContext) : bool :=
  match QSurfaceFormat.profile (context_format context),
        QSurfaceFormat.renderableType (context_format context) with
  | QSurfaceFormat.NoProfile, QSurfaceFormat.OpenGLES => false
  | QSurfaceFormat.NoProfile, _ => true
  | _, _ => false
  end.

(** The probe meets one of the conditions under which the source executes
    [return {}]: lines 48, 67, 71, 92, 101, 104, 107, 122, 133. *)
Definition probe_fails (s : System) (widget : option QWidget) (p : Process) : bool :=
  ForceDisabled p
  || match requested widget p with
     | inr _ => true
     | inl format =>
         match grabFramebuffer s format with
         | Initialized None => true
         | Initialized (Some context) =>
             negb (isValid context)
             || negb (NPOTTextures context)
             || negb (Framebuffers context)
             || negb (Shaders context)
             || negb (isLinked context)
             || unprofiled context
         | Throws | Crashes => false
         end
     end.

(** A process on a disk where an earlier run left a sentinel. *)
Definition leftover : Process :=
  start ∅ (disk_of {[ openglCheckFilePath healthy := "stale" ]}).

(** A machine whose [grabFramebuffer] throws. *)
Definition throwing : System := machine Throws.

(** A disk whose preference file holds [content]. *)
Definition preferring (content : string) : Disk :=
  disk_of {[ angleBackendFilePath healthy := content ]}.

(** A process that resolved D3D9 at startup and has since set the
    preference back to automatic, which removes the file. *)
Definition reverted : Process :=
  final (ChangeANGLE in_order healthy (in_order ANGLE.Auto)
           (ConfigureANGLE healthy (start ∅ (preferring "d3d9")))).

(** A valid context that links the test shader and negotiates a core
    profile with 8 bits of alpha, but reports no framebuffer support. *)
Definition without_framebuffers : QOpenGLContext :=
  {| isValid := true; NPOTTextures := true; Framebuffers := false;
     Shaders := true; isLinked := true;
     context_format := context_format (full_context 8);
     GL_RENDERER := None; GL_VENDOR := None; GL_VERSION := None;
     extensions := [] |}.

(** ** Notions used to state further properties *)

(** The widget given to the probe has no window handle and gets none from
    [createWinId]: the condition of line 67. *)
Definition window_missing (widget : option QWidget) : bool :=
  match widget with
  | Some w => negb (windowHandle w || windowHandle_after_createWinId w)
  | None => false
  end.

(** The backend whose name [bytes] start with. One name starts with
    another, d3d11on12 with d3d11: the longer one is looked for first. *)
Definition named (bytes : string) : option ANGLE.t :=
  if String.prefix "d3d11on12" bytes then Some ANGLE.D3D11on12
  else if String.prefix "d3d11" bytes then Some ANGLE.D3D11
  else if String.prefix "d3d9" bytes then Some ANGLE.D3D9
  else if String.prefix "gl" bytes then Some ANGLE.OpenGL
  else None.

(** [r] differs from [p] in the initialised statics and the log at most. *)
Definition only_noted (p r : Process) : Prop :=
  r = with_log (log r) (with_statics (statics r) p).

(** The process without its disk. *)
Definition diskless (p : Process) : Process := with_disk blank p.

Definition at_end {A} (f : Process → Process) (c : Completion A) : Completion A :=
  match c with
  | Returns a p => Returns a (f p)
  | Propagates p => Propagates (f p)
  | Dies why p => Dies why (f p)
  end.

(** A valid context fails one of the checks of lines 101-137. *)
Definition context_fails (context : QOpenGLContext) : bool :=
  negb (NPOTTextures context)
  || negb (Framebuffers context)
  || negb (Shaders context)
  || negb (isLinked context)
  || unprofiled context.

(** The record of a context that passes them: lines 176-185. *)
Definition granted (context : QOpenGLContext) : Capabilities :=
  {| supported := true;
     transparency := 8 <=? QSurfaceFormat.alphaBufferSize (context_format context) |}.

(** [r] differs from [p] at most in the file [path], the initialised
    statics, the log and the calls observed. *)
Definition elsewhere_kept (path : string) (p r : Process) : Prop :=
  ForceDisabled r = ForceDisabled p
  ∧ ResolvedANGLE r = ResolvedANGLE p
  ∧ environ r = environ p
  ∧ unwritable (disk r) = unwritable (disk p)
  ∧ unreadable (disk r) = unreadable (disk p)
  ∧ undeletable (disk r) = undeletable (disk p)
  ∧ ∀ other, other ≠ path → files (disk r) !! other = files (disk p) !! other.

(** A disk on which the sentinel of [healthy] cannot be written. *)
Definition write_protected : Disk :=
  {| files := ∅; unwritable := {[ openglCheckFilePath healthy ]};
     unreadable := ∅; undeletable := ∅ |}.

(** A disk on which the sentinel of [healthy] cannot be removed. *)
Definition sticky : Disk :=
  {| files := ∅; unwritable := ∅; unreadable := ∅;
     undeletable := {[ openglCheckFilePath healthy ]} |}.

(** A disk on which the preference file of [healthy] cannot be written. *)
Definition locked_preference : Disk :=
  {| files := ∅; unwritable := {[ angleBackendFilePath healthy ]};
     unreadable := ∅; undeletable := ∅ |}.

(** A widget whose window has no handle and gets none. *)
Definition windowless : QWidget :=
  {| windowHandle := false; windowHandle_after_createWinId := false;
     supportsOpenGL := true; format := QSurfaceFormat.default |}.

(** A Windows machine like [healthy] on which Qt has no native
    interface. *)
Definition headless : System :=
  {| Q_OS_WIN := true;
     openglCheckFilePath := openglCheckFilePath healthy;
     angleBackendFilePath := angleBackendFilePath healthy;
     gpu_driver_bug_list := false;
     grabFramebuffer := fun _ => Initialized (Some (full_context 8));
     platformNativeInterface := false;
     egldisplay := None |}.

(** A process that resolved D3D9 at startup, after which a token that
    names no backend was put into the preference file. *)
Definition repinned : Process :=
  with_disk (preferring "vulkan")
    (ConfigureANGLE healthy (start ∅ (preferring "d3d9"))).

(** * Properties *)

(** ** What logging and bookkeeping leave alone *)

Lemma disk_LOG line p : disk (LOG line p) = disk p.
Proof. reflexivity. Qed.

Lemma disk_LOG_ONCE site line p : disk (LOG_ONCE site line p) = disk p.
Proof. unfold LOG_ONCE. by case_bool_decide. Qed.

Lemma calls_LOG_ONCE site line p : calls (LOG_ONCE site line p) = calls p.
Proof. unfold LOG_ONCE. by case_bool_decide. Qed.

Lemma disk_BugListInited s p : disk (BugListInited s p) = disk p.
Proof. unfold BugListInited. case_bool_decide; [done|]. by destruct (gpu_driver_bug_list s). Qed.

Lemma calls_BugListInited s p : calls (BugListInited s p) = calls p.
Proof. unfold BugListInited. case_bool_decide; [done|]. by destruct (gpu_driver_bug_list s). Qed.

Lemma ForceDisabled_BugListInited s p :
  ForceDisabled (BugListInited s p) = ForceDisabled p.
Proof. unfold BugListInited. case_bool_decide; [done|]. by destruct (gpu_driver_bug_list s). Qed.

(** ** The files of the guard *)

Section Guard.

Variable s : System.

Local Abbreviation sentinel := (openglCheckFilePath s).

Lemma accessible_spec path d :
  accessible path d = true ↔
  path ≠ "" ∧ (path ∉ unwritable d) ∧ (path ∉ unreadable d) ∧ (path ∉ undeletable d).
Proof.
  unfold accessible, isEmpty.
  rewrite !andb_true_iff, negb_true_iff, bool_decide_eq_false, !bool_decide_eq_true.
  tauto.
Qed.

Lemma LastCrashCheckFailed_spec p :
  LastCrashCheckFailed s p = false ↔ files (disk p) !! sentinel = None.
Proof.
  unfold LastCrashCheckFailed, QFile_exists.
  rewrite bool_decide_eq_false, <-eq_None_not_Some. done.
Qed.

Lemma CrashCheckStart_writes p :
  sentinel ≠ "" → sentinel ∉ unwritable (disk p) →
  files (disk (CrashCheckStart s p)) = <[sentinel := "1"]> (files (disk p)).
Proof.
  intros Hne Hw. unfold CrashCheckStart, QFile_open_WriteOnly, isEmpty. simpl.
  rewrite bool_decide_eq_false_2, bool_decide_eq_false_2 by done. simpl.
  rewrite lookup_insert_eq. simpl. apply insert_insert_eq.
Qed.

Lemma CrashCheckStart_refused p :
  sentinel = "" ∨ sentinel ∈ unwritable (disk p) →
  disk (CrashCheckStart s p) = disk p.
Proof.
  intros H. unfold CrashCheckStart, QFile_open_WriteOnly, isEmpty. simpl.
  destruct H as [H|H].
  - by rewrite bool_decide_eq_true_2.
  - rewrite (bool_decide_eq_true_2 _ H). by rewrite orb_true_r.
Qed.

Lemma CrashCheckStart_permissions p :
  unwritable (disk (CrashCheckStart s p)) = unwritable (disk p)
  ∧ unreadable (disk (CrashCheckStart s p)) = unreadable (disk p)
  ∧ undeletable (disk (CrashCheckStart s p)) = undeletable (disk p).
Proof.
  unfold CrashCheckStart, QFile_open_WriteOnly. simpl.
  by destruct (isEmpty sentinel || bool_decide (sentinel ∈ unwritable (disk p))).
Qed.

Lemma CrashCheckFinish_removes p :
  sentinel ∉ undeletable (disk p) →
  files (disk (CrashCheckFinish s p)) = delete sentinel (files (disk p)).
Proof.
  intros Hd. unfold CrashCheckFinish, QFile_remove, QFile_exists. simpl.
  rewrite (bool_decide_eq_false_2 _ Hd). simpl. rewrite andb_true_r.
  case_bool_decide as Hex; simpl; [done|].
  apply eq_None_not_Some in Hex. by rewrite delete_id.
Qed.

Lemma CrashCheckFinish_permissions p :
  unwritable (disk (CrashCheckFinish s p)) = unwritable (disk p)
  ∧ unreadable (disk (CrashCheckFinish s p)) = unreadable (disk p)
  ∧ undeletable (disk (CrashCheckFinish s p)) = undeletable (disk p).
Proof.
  unfold CrashCheckFinish, QFile_remove. simpl.
  by destruct (QFile_exists sentinel (disk p)
               && negb (bool_decide (sentinel ∈ undeletable (disk p)))).
Qed.

Lemma CrashCheckFinish_absent p :
  files (disk p) !! sentinel = None → disk (CrashCheckFinish s p) = disk p.
Proof.
  intros Habs. unfold CrashCheckFinish, QFile_remove, QFile_exists. simpl.
  rewrite bool_decide_eq_false_2; [done|]. rewrite Habs. by intros [? ?].
Qed.

Lemma accessible_guarded_cycle p :
  accessible sentinel (disk (guarded_cycle s p)) = accessible sentinel (disk p).
Proof.
  unfold guarded_cycle, accessible.
  destruct (CrashCheckFinish_permissions (CrashCheckStart s p)) as (-> & -> & ->).
  by destruct (CrashCheckStart_permissions p) as (-> & -> & ->).
Qed.

Lemma guarded_cycle_absent p :
  sentinel ∉ undeletable (disk p) →
  files (disk (guarded_cycle s p)) !! sentinel = None.
Proof.
  intros Hd. unfold guarded_cycle. rewrite CrashCheckFinish_removes.
  - apply lookup_delete_eq.
  - by destruct (CrashCheckStart_permissions p) as (_ & _ & ->).
Qed.

Lemma undeletable_guarded_cycle p :
  undeletable (disk (guarded_cycle s p)) = undeletable (disk p).
Proof.
  unfold guarded_cycle.
  destruct (CrashCheckFinish_permissions (CrashCheckStart s p)) as (_ & _ & ->).
  by destruct (CrashCheckStart_permissions p) as (_ & _ & ->).
Qed.

Lemma undeletable_iterated_cycles p N :
  undeletable (disk (Nat.iter N (guarded_cycle s) p)) = undeletable (disk p).
Proof.
  induction N as [|N IH]; [done|].
  rewrite Nat.iter_succ, undeletable_guarded_cycle. exact IH.
Qed.

Lemma iterated_cycles_absent p N :
  sentinel ∉ undeletable (disk p) →
  files (disk p) !! sentinel = None →
  files (disk (Nat.iter N (guarded_cycle s) p)) !! sentinel = None.
Proof.
  intros Hd Habs. destruct N as [|N]; [done|]. rewrite Nat.iter_succ.
  apply guarded_cycle_absent. by rewrite undeletable_iterated_cycles.
Qed.

Lemma CrashCheckFinish_refused p :
  sentinel ∈ undeletable (disk p) → disk (CrashCheckFinish s p) = disk p.
Proof.
  intros Hdel. unfold CrashCheckFinish, QFile_remove. simpl.
  rewrite (bool_decide_eq_true_2 _ Hdel). by rewrite andb_false_r.
Qed.

Lemma CrashCheckFinish_twice p :
  disk (CrashCheckFinish s (CrashCheckFinish s p)) = disk (CrashCheckFinish s p).
Proof.
  destruct (decide (sentinel ∈ undeletable (disk p))) as [Hdel|Hdel].
  - apply CrashCheckFinish_refused. by rewrite CrashCheckFinish_refused.
  - apply CrashCheckFinish_absent. rewrite CrashCheckFinish_removes by done.
    apply lookup_delete_eq.
Qed.

(** C5. On a store that lets the sentinel be removed, [N] brackets
    [CrashCheckStart; CrashCheckFinish] in a row, begun without a sentinel,
    end without one and [LastCrashCheckFailed] answers false, for every
    [N]. On a store that lets the sentinel be written, [CrashCheckStart]
    replaces whatever an existing sentinel held by the byte it writes.
    [CrashCheckFinish] changes nothing on a disk without sentinel, and
    doing it twice is doing it once. *)
Theorem guard_bracket_is_idempotent (p : Process) (N : nat) :
  (sentinel ∉ undeletable (disk p) →
   LastCrashCheckFailed s p = false →
   files (disk (Nat.iter N (guarded_cycle s) p)) !! sentinel = None
   ∧ LastCrashCheckFailed s (Nat.iter N (guarded_cycle s) p) = false)
  ∧ (sentinel ≠ "" → sentinel ∉ unwritable (disk p) →
     files (disk (CrashCheckStart s p)) !! sentinel = Some "1")
  ∧ (LastCrashCheckFailed s p = false → disk (CrashCheckFinish s p) = disk p)
  ∧ disk (CrashCheckFinish s (CrashCheckFinish s p)) = disk (CrashCheckFinish s p).
Proof.
  split; [|split; [|split]].
  - intros Hd Habs%LastCrashCheckFailed_spec.
    assert (files (disk (Nat.iter N (guarded_cycle s) p)) !! sentinel = None)
      as Hend by by apply iterated_cycles_absent.
    split; [done|]. by apply LastCrashCheckFailed_spec.
  - intros Hne Hw. rewrite CrashCheckStart_writes by done. apply lookup_insert_eq.
  - intros Habs%LastCrashCheckFailed_spec. by apply CrashCheckFinish_absent.
  - apply CrashCheckFinish_twice.
Qed.

(** C2. On a store that refuses no access to the sentinel: when the
    process ends after [CrashCheckStart] and before [CrashCheckFinish], the
    next run finds [LastCrashCheckFailed] true; once that run has gone
    through [CrashCheckStart] and [CrashCheckFinish], it finds it false. *)
Theorem open_bracket_is_seen_by_next_run (p : Process) (e : gmap string string) :
  accessible sentinel (disk p) = true →
  LastCrashCheckFailed s (next_run e (CrashCheckStart s p)) = true
  ∧ LastCrashCheckFailed s
      (CrashCheckFinish s (CrashCheckStart s (next_run e (CrashCheckStart s p))))
    = false.
Proof.
  intros (Hne & Hw & _ & Hd)%accessible_spec. split.
  - unfold LastCrashCheckFailed, QFile_exists, next_run. simpl.
    rewrite CrashCheckStart_writes by done.
    rewrite lookup_insert_eq. by apply bool_decide_eq_true_2.
  - apply LastCrashCheckFailed_spec.
    apply (guarded_cycle_absent (next_run e (CrashCheckStart s p))). simpl.
    by destruct (CrashCheckStart_permissions p) as (_ & _ & ->).
Qed.

End Guard.

(** ** The probe *)

Lemma requested_any_process widget p q format :
  requested widget p = inl format → requested widget q = inl format.
Proof. unfold requested. intros H. by repeat case_match. Qed.

Lemma extensionsLogged_keeps s context p :
  disk (final (extensionsLogged s context p)) = disk p
  ∧ calls (final (extensionsLogged s context p)) = calls p.
Proof.
  unfold extensionsLogged, EGLExtensions.
  case_bool_decide; [done|].
  destruct (Q_OS_WIN s); [|done].
  by destruct (platformNativeInterface s).
Qed.

Lemma CheckContext_keeps s context p :
  disk (final (CheckContext s context p)) = disk p
  ∧ calls (final (CheckContext s context p)) = calls p.
Proof.
  unfold CheckContext.
  destruct (NPOTTextures context); simpl;
    [|by rewrite disk_LOG_ONCE, calls_LOG_ONCE].
  destruct (Framebuffers context); simpl;
    [|by rewrite disk_LOG_ONCE, calls_LOG_ONCE].
  destruct (Shaders context); simpl;
    [|by rewrite disk_LOG_ONCE, calls_LOG_ONCE].
  destruct (isLinked context); simpl;
    [|by rewrite disk_LOG_ONCE, calls_LOG_ONCE].
  destruct (QSurfaceFormat.profile (context_format context));
    [destruct (QSurfaceFormat.renderableType (context_format context))|..];
    simpl; try by rewrite disk_LOG_ONCE, calls_LOG_ONCE.
  all: match goal with
       | |- context [extensionsLogged ?s' ?c' ?q] =>
           pose proof (extensionsLogged_keeps s' c' q) as [Hd Hc];
           rewrite disk_LOG_ONCE in Hd; rewrite calls_LOG_ONCE in Hc;
           destruct (extensionsLogged s' c' q) as [[] r|r|why r]
       end; simpl in *; try done.
  all: by destruct (8 <=? _); simpl; rewrite disk_LOG_ONCE, calls_LOG_ONCE.
Qed.

(** The state in which [tester.grabFramebuffer()] is entered. *)
Lemma CheckCapabilities_at_grab s widget p format :
  ForceDisabled p = false →
  requested widget p = inl format →
  CheckCapabilities s widget p =
    let q := called CallGrabFramebuffer (CrashCheckStart s (BugListInited s p)) in
    match grabFramebuffer s format with
    | Crashes => Dies DriverCrash q
    | Throws => Propagates q
    | Initialized context =>
        let q := CrashCheckFinish s q in
        match context with
        | Some context =>
            if isValid context then CheckContext s context q
            else Returns zero
                   (LOG_ONCE 96 (say "OpenGL: Could not create widget in a window.") q)
        | None =>
            Returns zero
              (LOG_ONCE 96 (say "OpenGL: Could not create widget in a window.") q)
        end
    end.
Proof.
  intros Hf Hr. unfold CheckCapabilities. rewrite Hf.
  by rewrite (requested_any_process widget p (BugListInited s p) format Hr).
Qed.

Lemma calls_at_grab s p :
  calls (called CallGrabFramebuffer (CrashCheckStart s (BugListInited s p)))
  = calls p ++ [CallCrashCheckStart; CallGrabFramebuffer].
Proof.
  unfold CrashCheckStart. simpl.
  destruct (QFile_open_WriteOnly _ _); simpl;
    by rewrite calls_BugListInited, <-app_assoc.
Qed.

Lemma calls_CrashCheckFinish s p :
  calls (CrashCheckFinish s p) = calls p ++ [CallCrashCheckFinish].
Proof. reflexivity. Qed.

(** C3. After [ForceDisable(true)], [CheckCapabilities] returns the zero
    record; it makes none of the calls around the risky step, so
    [CrashCheckStart] is not invoked, and the disk, the sentinel with it,
    is as it was. *)
Theorem force_disabled_skips_the_guard
    (s : System) (widget : option QWidget) (p : Process) :
  ∃ p', CheckCapabilities s widget (ForceDisable true p) = Returns zero p'
        ∧ calls p' = calls p
        ∧ disk p' = disk p
        ∧ LastCrashCheckFailed s p' = LastCrashCheckFailed s p.
Proof.
  eexists. split; [reflexivity|].
  unfold LastCrashCheckFailed. by rewrite calls_LOG_ONCE, disk_LOG_ONCE.
Qed.

(** C4. Whenever the probe reaches the feature checks with a valid
    context and one of NPOT textures, framebuffers or shaders is reported
    missing, [CheckCapabilities] returns the zero record, whatever the
    shader link and the negotiated format of that context are. *)
Theorem missing_feature_fails_the_probe
    (s : System) (widget : option QWidget) (p : Process)
    (format : QSurfaceFormat.t) (context : QOpenGLContext) :
  ForceDisabled p = false →
  requested widget p = inl format →
  grabFramebuffer s format = Initialized (Some context) →
  isValid context = true →
  NPOTTextures context = false ∨ Framebuffers context = false
    ∨ Shaders context = false →
  returned (CheckCapabilities s widget p) = Some zero.
Proof.
  intros Hf Hr Hg Hv Hmiss.
  rewrite (CheckCapabilities_at_grab s widget p format Hf Hr), Hg. simpl.
  rewrite Hv. unfold CheckContext.
  destruct (NPOTTextures context); [|done].
  destruct (Framebuffers context); [|done].
  destruct (Shaders context); [|done].
  by destruct Hmiss as [?|[?|?]].
Qed.

Lemma CheckContext_returns s context p caps :
  returned (CheckContext s context p) = Some caps →
  caps = zero ∨ supported caps = true.
Proof.
  unfold CheckContext.
  repeat (case_match; simpl; try (intros [= <-]; by auto)); done.
Qed.

(** C10. Every record [CheckCapabilities] returns has [supported] set
    when [transparency] is set, and is the zero record when [supported] is
    not set. *)
Theorem transparency_only_when_supported
    (s : System) (widget : option QWidget) (p : Process) (caps : Capabilities) :
  returned (CheckCapabilities s widget p) = Some caps →
  (transparency caps = true → supported caps = true)
  ∧ (supported caps = false → caps = zero).
Proof.
  intros Hret.
  assert (caps = zero ∨ supported caps = true) as [->|Hs]; [|done|].
  - revert Hret. unfold CheckCapabilities.
    repeat (case_match; simpl; try (intros [= <-]; by auto); try done).
    apply CheckContext_returns.
  - split; [done|]. by rewrite Hs.
Qed.

Lemma returning_grab_closes_the_bracket s widget p format context :
  ForceDisabled p = false →
  requested widget p = inl format →
  grabFramebuffer s format = Initialized context →
  calls (final (CheckCapabilities s widget p))
  = calls p ++ [CallCrashCheckStart; CallGrabFramebuffer; CallCrashCheckFinish]
  ∧ (openglCheckFilePath s ∉ undeletable (disk p) →
     LastCrashCheckFailed s (final (CheckCapabilities s widget p)) = false).
Proof.
  intros Hf Hr Hg.
  rewrite (CheckCapabilities_at_grab s widget p format Hf Hr), Hg.
  set (q := called CallGrabFramebuffer (CrashCheckStart s (BugListInited s p))).
  simpl.
  assert (∀ r, disk r = disk (CrashCheckFinish s q) →
               calls r = calls (CrashCheckFinish s q) →
               calls r = calls p ++ [CallCrashCheckStart; CallGrabFramebuffer;
                                     CallCrashCheckFinish]
               ∧ (openglCheckFilePath s ∉ undeletable (disk p) →
                  LastCrashCheckFailed s r = false)) as Hend.
  { intros r Hd Hc. split.
    - rewrite Hc, calls_CrashCheckFinish. subst q.
      by rewrite calls_at_grab, <-app_assoc.
    - intros Hdel. apply LastCrashCheckFailed_spec. rewrite Hd.
      rewrite CrashCheckFinish_removes; [apply lookup_delete_eq|].
      subst q. simpl.
      destruct (CrashCheckStart_permissions s (BugListInited s p))
        as (_ & _ & ->).
      by rewrite disk_BugListInited. }
  destruct context as [context|]; [destruct (isValid context)|]; simpl.
  - destruct (CheckContext_keeps s context (CrashCheckFinish s q)) as [Hd Hc].
    by apply Hend.
  - apply Hend; [apply disk_LOG_ONCE|apply calls_LOG_ONCE].
  - apply Hend; [apply disk_LOG_ONCE|apply calls_LOG_ONCE].
Qed.

(** The state in which a [grabFramebuffer] that does not return leaves
    the process. *)
Lemma lost_grab_leaves_the_bracket_open s widget p format :
  ForceDisabled p = false →
  requested widget p = inl format →
  ∃ q, (grabFramebuffer s format = Throws →
        CheckCapabilities s widget p = Propagates q)
       ∧ (grabFramebuffer s format = Crashes →
          CheckCapabilities s widget p = Dies DriverCrash q)
       ∧ calls q = calls p ++ [CallCrashCheckStart; CallGrabFramebuffer]
       ∧ undeletable (disk q) = undeletable (disk p)
       ∧ (openglCheckFilePath s ≠ "" →
          openglCheckFilePath s ∉ unwritable (disk p) →
          files (disk q) !! openglCheckFilePath s = Some "1").
Proof.
  intros Hf Hr.
  rewrite (CheckCapabilities_at_grab s widget p format Hf Hr).
  exists (called CallGrabFramebuffer (CrashCheckStart s (BugListInited s p))).
  split; [by intros ->|]. split; [by intros ->|].
  split; [apply calls_at_grab|]. simpl. split.
  - destruct (CrashCheckStart_permissions s (BugListInited s p)) as (_ & _ & ->).
    by rewrite disk_BugListInited.
  - intros Hne Hw.
    rewrite CrashCheckStart_writes by by rewrite ?disk_BugListInited.
    apply lookup_insert_eq.
Qed.

(** C1, as the code has it. When the probe reaches the risky step and
    [grabFramebuffer] returns, with or without a context, the calls made are
    [CrashCheckStart], [grabFramebuffer], [CrashCheckFinish] in this order,
    and the sentinel is gone if the store lets it be removed. The closing
    call is an ordinary statement after the risky one: when
    [grabFramebuffer] throws, the exception leaves [CheckCapabilities] with
    only the first two calls made, and a sentinel that could be written is
    still there. *)
Theorem finish_follows_a_returning_grab
    (s : System) (widget : option QWidget) (p : Process)
    (format : QSurfaceFormat.t) :
  ForceDisabled p = false →
  requested widget p = inl format →
  (∀ context, grabFramebuffer s format = Initialized context →
     calls (final (CheckCapabilities s widget p))
     = calls p ++ [CallCrashCheckStart; CallGrabFramebuffer; CallCrashCheckFinish]
     ∧ (openglCheckFilePath s ∉ undeletable (disk p) →
        LastCrashCheckFailed s (final (CheckCapabilities s widget p)) = false))
  ∧ (grabFramebuffer s format = Throws →
     ∃ q, CheckCapabilities s widget p = Propagates q
          ∧ calls q = calls p ++ [CallCrashCheckStart; CallGrabFramebuffer]
          ∧ (openglCheckFilePath s ≠ "" →
             openglCheckFilePath s ∉ unwritable (disk p) →
             LastCrashCheckFailed s q = true)).
Proof.
  intros Hf Hr. split.
  - intros context Hg. by apply (returning_grab_closes_the_bracket s widget p format context).
  - intros Hg.
    destruct (lost_grab_leaves_the_bracket_open s widget p format Hf Hr)
      as (q & Hthrows & _ & Hcalls & _ & Hfile).
    exists q. split; [by apply Hthrows|]. split; [done|].
    intros Hne Hw. unfold LastCrashCheckFailed, QFile_exists.
    rewrite (Hfile Hne Hw). by apply bool_decide_eq_true_2.
Qed.

(** The crash the guard is there for: the driver ends the process inside
    [grabFramebuffer]; the next run finds [LastCrashCheckFailed] true, and
    false again after a probe of its own whose [grabFramebuffer] returns. *)
Lemma driver_crash_is_seen_then_cleared s widget p format e s' context :
  accessible (openglCheckFilePath s) (disk p) = true →
  ForceDisabled p = false →
  requested widget p = inl format →
  grabFramebuffer s format = Crashes →
  openglCheckFilePath s' = openglCheckFilePath s →
  grabFramebuffer s' (QSurfaceFormat.setAlphaBufferSize 8 QSurfaceFormat.default)
  = Initialized context →
  ∃ q, CheckCapabilities s widget p = Dies DriverCrash q
       ∧ LastCrashCheckFailed s (next_run e q) = true
       ∧ LastCrashCheckFailed s'
           (final (CheckCapabilities s' None (next_run e q))) = false.
Proof.
  intros (Hne & Hw & _ & Hd)%accessible_spec Hf Hr Hg Hpath Hg'.
  destruct (lost_grab_leaves_the_bracket_open s widget p format Hf Hr)
    as (q & _ & Hcrashes & _ & Hperm & Hfile).
  exists q. split; [by apply Hcrashes|]. split.
  - unfold LastCrashCheckFailed, QFile_exists, next_run. simpl.
    rewrite (Hfile Hne Hw). by apply bool_decide_eq_true_2.
  - apply (returning_grab_closes_the_bracket s' None (next_run e q)
             (QSurfaceFormat.setAlphaBufferSize 8 QSurfaceFormat.default) context);
      [done..|].
    rewrite Hpath. simpl. by rewrite Hperm.
Qed.

(** C1 as stated fails: on a machine whose [grabFramebuffer] throws, the
    process survives the risky step, the exception leaves the probe, and
    [CrashCheckFinish] has not been called: the sentinel is still there. *)
Lemma throwing_grab_leaves_the_bracket_open :
  CheckCapabilities throwing None fresh
  = Propagates
      (called CallGrabFramebuffer
         (CrashCheckStart throwing (BugListInited throwing fresh)))
  ∧ calls (final (CheckCapabilities throwing None fresh))
    = [CallCrashCheckStart; CallGrabFramebuffer]
  ∧ (CallCrashCheckFinish ∉ calls (final (CheckCapabilities throwing None fresh)))
  ∧ LastCrashCheckFailed throwing (final (CheckCapabilities throwing None fresh))
    = true.
Proof.
  split; [by vm_compute|]. split; [by vm_compute|]. split; [|by vm_compute].
  rewrite <-(bool_decide_eq_false _). by vm_compute.
Qed.

Lemma probe_fails_returns_zero s widget p :
  probe_fails s widget p = true →
  ∃ p', CheckCapabilities s widget p = Returns zero p'.
Proof.
  unfold probe_fails, CheckCapabilities.
  destruct (ForceDisabled p); simpl; [by eauto|].
  destruct (requested widget p) as [format|q] eqn:Hr.
  - rewrite (requested_any_process widget p (BugListInited s p) format Hr).
    destruct (grabFramebuffer s format) as [[context|]| |];
      simpl; [|by eauto|done|done].
    destruct (isValid context); simpl; [|by eauto].
    unfold CheckContext, unprofiled.
    destruct (NPOTTextures context); simpl; [|by eauto].
    destruct (Framebuffers context); simpl; [|by eauto].
    destruct (Shaders context); simpl; [|by eauto].
    destruct (isLinked context); simpl; [|by eauto].
    destruct (QSurfaceFormat.profile (context_format context)); [|done..].
    destruct (QSurfaceFormat.renderableType (context_format context));
      by eauto.
  - intros _. unfold requested in *. repeat case_match; simplify_eq; by eauto.
Qed.

Lemma extensionsLogged_returns s context p :
  (Q_OS_WIN s = true → platformNativeInterface s = true) →
  ∃ p', extensionsLogged s context p = Returns tt p'.
Proof.
  intros Hnative. unfold extensionsLogged, EGLExtensions.
  case_bool_decide; [by eauto|].
  destruct (Q_OS_WIN s); [|by eauto].
  rewrite Hnative by done. simpl. by eauto.
Qed.

Lemma CheckContext_returns_normally s context p :
  (Q_OS_WIN s = true → platformNativeInterface s = true) →
  ∃ caps p', CheckContext s context p = Returns caps p'.
Proof.
  intros Hnative. unfold CheckContext.
  repeat (case_match; try by eauto).
  all: match goal with
       | H : extensionsLogged ?s' ?c' ?q = _ |- _ =>
           destruct (extensionsLogged_returns s' c' q Hnative) as [r Hr];
           rewrite Hr in H; discriminate H
       end.
Qed.

Lemma CheckCapabilities_returns s widget p :
  (∀ format, ∃ context, grabFramebuffer s format = Initialized context) →
  (Q_OS_WIN s = true → platformNativeInterface s = true) →
  ∃ caps p', CheckCapabilities s widget p = Returns caps p'.
Proof.
  intros Hgrab Hnative. unfold CheckCapabilities.
  destruct (ForceDisabled p); [by eauto|].
  destruct (requested widget (BugListInited s p)) as [format|q]; [|by eauto].
  destruct (Hgrab format) as [context ->].
  destruct context as [context|]; [|by eauto].
  destruct (isValid context); [|by eauto].
  by apply CheckContext_returns_normally.
Qed.

(** The ends of the probe other than a return: the two ways out of
    [grabFramebuffer], and the assertion of [EGLExtensions], which is
    reached only by a probe that meets no failure condition. *)
Lemma CheckCapabilities_other_ends s widget p :
  returned (CheckCapabilities s widget p) = None →
  (∃ format, requested widget p = inl format
             ∧ (grabFramebuffer s format = Throws
                ∨ grabFramebuffer s format = Crashes))
  ∨ (Q_OS_WIN s = true ∧ platformNativeInterface s = false
     ∧ probe_fails s widget p = false).
Proof.
  destruct (probe_fails s widget p) eqn:Hfails.
  { destruct (probe_fails_returns_zero s widget p Hfails) as [p' ->]. done. }
  unfold probe_fails in Hfails.
  destruct (ForceDisabled p) eqn:Hforce; [done|]. simpl in Hfails.
  destruct (requested widget p) as [format|] eqn:Hr; [|done].
  rewrite (CheckCapabilities_at_grab s widget p format Hforce Hr).
  destruct (grabFramebuffer s format) as [[context|]| |] eqn:Hgrab;
    [|done|..];
    [|intros _; left; exists format; split; [done|]; by auto..].
  simpl. apply orb_false_elim in Hfails as [Hfails _].
  repeat apply orb_false_elim in Hfails as [Hfails ?].
  apply negb_false_iff in Hfails as ->.
  intros Hret. right.
  destruct (Q_OS_WIN s) eqn:Hwin, (platformNativeInterface s) eqn:Hnat;
    try done;
    by edestruct (CheckContext_returns_normally s context) as (caps & r & Heq);
      [by rewrite Hwin, ?Hnat|rewrite Heq in Hret].
Qed.

(** ** The backend preference *)

Section Backend.

Variable underlying : ANGLE.t → Z.

Lemma ChangeANGLE_returns s a p :
  ∃ p', ChangeANGLE underlying s (underlying a) p = Returns tt p'.
Proof.
  unfold ChangeANGLE.
  repeat (case_match; [by eauto|]).
  destruct a; by rewrite Z.eqb_refl in *.
Qed.

(** A number that is no enumerator's ends in the [default] of the switch. *)
Lemma ChangeANGLE_outside s backend p :
  (∀ a, backend ≠ underlying a) →
  ChangeANGLE underlying s backend p = Dies (Unexpected "ANGLE backend value.") p.
Proof.
  intros Hout. unfold ChangeANGLE.
  by rewrite !(proj2 (Z.eqb_neq _ _)) by apply Hout.
Qed.

(** C9, as the code has it. [ChangeANGLE] called with any of the five
    enumerators returns: it does not reach [Unexpected]. Whenever the probe
    meets one of the conditions the code tests for failure,
    [CheckCapabilities] returns, and returns the zero record. And whenever
    [grabFramebuffer] comes back and, on Windows, Qt has its native
    interface, [CheckCapabilities] returns. *)
Theorem failure_paths_return_normally
    (s : System) (a : ANGLE.t) (widget : option QWidget) (p : Process) :
  (∃ p', ChangeANGLE underlying s (underlying a) p = Returns tt p')
  ∧ (probe_fails s widget p = true →
     ∃ p', CheckCapabilities s widget p = Returns zero p')
  ∧ ((∀ format, ∃ context, grabFramebuffer s format = Initialized context) →
     (Q_OS_WIN s = true → platformNativeInterface s = true) →
     ∃ caps p', CheckCapabilities s widget p = Returns caps p').
Proof.
  split; [apply ChangeANGLE_returns|].
  split; [apply probe_fails_returns_zero|apply CheckCapabilities_returns].
Qed.

Hypothesis underlying_inj : ∀ a b, underlying a = underlying b → a = b.

Lemma ChangeANGLE_enumerator s a p :
  ChangeANGLE underlying s (underlying a) p =
  Returns tt
    match token a with
    | None => with_disk (QFile_remove (angleBackendFilePath s) (disk p)).2 p
    | Some name => write (angleBackendFilePath s) name p
    end.
Proof.
  unfold ChangeANGLE.
  destruct a; simpl;
    repeat match goal with
      | |- context [underlying ?x =? underlying ?x] => rewrite Z.eqb_refl
      | |- context [underlying ?x =? underlying ?y] =>
          rewrite (proj2 (Z.eqb_neq (underlying x) (underlying y)))
            by (by intros ?%underlying_inj)
      end; done.
Qed.

End Backend.

Section Preference.

Variable s : System.

Local Abbreviation preference := (angleBackendFilePath s).

Lemma write_stores name p :
  preference ≠ "" → preference ∉ unwritable (disk p) →
  files (disk (write preference name p)) = <[preference := name]> (files (disk p))
  ∧ unreadable (disk (write preference name p)) = unreadable (disk p).
Proof.
  intros Hne Hw. unfold write, QFile_open_WriteOnly, isEmpty.
  rewrite bool_decide_eq_false_2, bool_decide_eq_false_2 by done. simpl.
  rewrite lookup_insert_eq. split; [|done].
  rewrite insert_insert_eq. reflexivity.
Qed.

Lemma prefix_QFile_read name maxlen content :
  (String.length name ≤ maxlen)%nat →
  String.prefix name (QFile_read maxlen content) = String.prefix name content.
Proof.
  unfold QFile_read. revert name maxlen.
  induction content as [|c' content IH]; intros name maxlen Hlen.
  - by destruct name, maxlen.
  - destruct name as [|c name]; [by destruct maxlen|].
    destruct maxlen as [|maxlen]; simpl in Hlen; [lia|]. simpl.
    destruct (ascii_dec c c'); [|done]. apply IH. lia.
Qed.

(** What [ConfigureANGLE] does once the file is open. *)
Lemma ConfigureANGLE_open p content :
  QFile_open_ReadOnly preference (disk p) = Some content →
  ConfigureANGLE s p =
    let bytes := QFile_read 32 content in
    let q := qunsetenv DESKTOP_APP_QT_ANGLE_PLATFORM p in
    let q := check bytes "gl" ANGLE.OpenGL q in
    let q := check bytes "d3d9" ANGLE.D3D9 q in
    let q := check bytes "d3d11" ANGLE.D3D11 q in
    let q := check bytes "d3d11on12" ANGLE.D3D11on12 q in
    if bool_decide (ResolvedANGLE q = ANGLE.Auto)
    then LOG (unknown_backend bytes) q else q.
Proof.
  intros Hopen. unfold ConfigureANGLE. simpl.
  assert (isEmpty preference = false) as ->.
  { unfold QFile_open_ReadOnly in Hopen. by destruct (isEmpty preference). }
  by rewrite Hopen.
Qed.

Lemma ConfigureANGLE_closed p :
  QFile_open_ReadOnly preference (disk p) = None →
  ConfigureANGLE s p = qunsetenv DESKTOP_APP_QT_ANGLE_PLATFORM p.
Proof.
  intros Hopen. unfold ConfigureANGLE. simpl. rewrite Hopen.
  by destruct (isEmpty preference).
Qed.

Lemma check_no_match bytes backend angle p :
  String.prefix backend bytes = false → check bytes backend angle p = p.
Proof. intros H. unfold check. by rewrite H. Qed.

(** The token of each backend is resolved to that backend. *)
Lemma ConfigureANGLE_token a name p :
  token a = Some name →
  QFile_open_ReadOnly preference (disk p) = Some name →
  CurrentANGLE (ConfigureANGLE s p) = a
  ∧ environ (ConfigureANGLE s p) !! DESKTOP_APP_QT_ANGLE_PLATFORM = Some name.
Proof.
  intros Htoken Hopen. rewrite (ConfigureANGLE_open p name Hopen).
  destruct a; simplify_eq/=; unfold check, QFile_read; simpl;
    (split; [done|apply lookup_insert_eq]).
Qed.

(** C7, as the code has it. When the preference file cannot be opened
    (the path is empty, or the file is absent or unreadable),
    [ConfigureANGLE] leaves [ResolvedANGLE] as it found it, logs nothing,
    publishes no directive and leaves the disk alone. A file that exists
    and is empty is opened like any other: [ResolvedANGLE] and the disk are
    again left as they were and no directive is published, and the
    unknown-backend warning is logged if [ResolvedANGLE] is [Auto]. *)
Theorem configure_without_token (p : Process) :
  (QFile_open_ReadOnly preference (disk p) = None →
   CurrentANGLE (ConfigureANGLE s p) = CurrentANGLE p
   ∧ log (ConfigureANGLE s p) = log p
   ∧ environ (ConfigureANGLE s p) !! DESKTOP_APP_QT_ANGLE_PLATFORM = None
   ∧ disk (ConfigureANGLE s p) = disk p)
  ∧ (QFile_open_ReadOnly preference (disk p) = Some "" →
     CurrentANGLE (ConfigureANGLE s p) = CurrentANGLE p
     ∧ log (ConfigureANGLE s p)
       = log p ++ (if bool_decide (CurrentANGLE p = ANGLE.Auto)
                   then [unknown_backend ""] else [])
     ∧ environ (ConfigureANGLE s p) !! DESKTOP_APP_QT_ANGLE_PLATFORM = None
     ∧ disk (ConfigureANGLE s p) = disk p).
Proof.
  split; intros Hopen.
  - rewrite (ConfigureANGLE_closed p Hopen). simpl.
    by rewrite lookup_delete_eq.
  - rewrite (ConfigureANGLE_open p "" Hopen). simpl. unfold CurrentANGLE.
    case_bool_decide; simpl; by rewrite lookup_delete_eq, ?app_nil_r.
Qed.

(** C8, as the code has it. In a process that has resolved no backend
    yet, when the preference file opens and its content starts with none
    of the backend names, [ConfigureANGLE] leaves [CurrentANGLE] at [Auto]
    and adds one line to the log, the unknown-backend warning. *)
Theorem unknown_token_warns_once (p : Process) (content : string) :
  ResolvedANGLE p = ANGLE.Auto →
  QFile_open_ReadOnly preference (disk p) = Some content →
  (∀ a name, token a = Some name → String.prefix name content = false) →
  CurrentANGLE (ConfigureANGLE s p) = ANGLE.Auto
  ∧ log (ConfigureANGLE s p) = log p ++ [unknown_backend (QFile_read 32 content)]
  ∧ environ (ConfigureANGLE s p) !! DESKTOP_APP_QT_ANGLE_PLATFORM = None.
Proof.
  intros Hauto Hopen Hnone. rewrite (ConfigureANGLE_open p content Hopen).
  cbv zeta.
  rewrite !check_no_match.
  - simpl. rewrite Hauto. simpl. by rewrite lookup_delete_eq.
  - rewrite prefix_QFile_read by (simpl; lia). by apply (Hnone ANGLE.OpenGL).
  - rewrite prefix_QFile_read by (simpl; lia). by apply (Hnone ANGLE.D3D9).
  - rewrite prefix_QFile_read by (simpl; lia). by apply (Hnone ANGLE.D3D11).
  - rewrite prefix_QFile_read by (simpl; lia). by apply (Hnone ANGLE.D3D11on12).
Qed.

End Preference.

Lemma QFile_remove_deletes path d :
  path ∉ undeletable d →
  files (QFile_remove path d).2 = delete path (files d)
  ∧ unreadable (QFile_remove path d).2 = unreadable d.
Proof.
  intros Hd. unfold QFile_remove, QFile_exists.
  rewrite (bool_decide_eq_false_2 _ Hd). simpl. rewrite andb_true_r.
  case_bool_decide as Hex; simpl; [done|].
  apply eq_None_not_Some in Hex. by rewrite delete_id.
Qed.

Section Roundtrip.

Variable underlying : ANGLE.t → Z.

(** The [case] labels of one [switch] are pairwise different. *)
Hypothesis underlying_inj : ∀ a b, underlying a = underlying b → a = b.

Variable s : System.

(** C6. On a store that refuses no access to the preference file:
    [ChangeANGLE] with any backend returns and leaves the file holding that
    backend's token, or no file for [Auto]; [ConfigureANGLE] in the next
    run then makes [CurrentANGLE] that backend, D3D11on12 included, and
    [Auto] when the file was removed. *)
Theorem backend_survives_restart
    (p : Process) (e : gmap string string) (a : ANGLE.t) :
  accessible (angleBackendFilePath s) (disk p) = true →
  ∃ p', ChangeANGLE underlying s (underlying a) p = Returns tt p'
        ∧ files (disk p') !! angleBackendFilePath s = token a
        ∧ CurrentANGLE (ConfigureANGLE s (next_run e p')) = a.
Proof.
  intros (Hne & Hw & Hr & Hd)%accessible_spec.
  rewrite (ChangeANGLE_enumerator underlying underlying_inj).
  eexists. split; [reflexivity|].
  destruct (token a) as [name|] eqn:Htoken.
  - destruct (write_stores s name p Hne Hw) as [Hfiles Hread].
    assert (files (disk (write (angleBackendFilePath s) name p))
              !! angleBackendFilePath s = Some name) as Hlookup
      by by rewrite Hfiles, lookup_insert_eq.
    split; [done|].
    apply (ConfigureANGLE_token s a name); [done|].
    unfold QFile_open_ReadOnly, isEmpty, next_run. simpl. rewrite Hread.
    by rewrite bool_decide_eq_false_2, bool_decide_eq_false_2.
  - destruct (QFile_remove_deletes (angleBackendFilePath s) (disk p) Hd)
      as [Hfiles Hread].
    assert (files (disk (with_disk
                           (QFile_remove (angleBackendFilePath s) (disk p)).2 p))
              !! angleBackendFilePath s = None) as Hlookup
      by (simpl; by rewrite Hfiles, lookup_delete_eq).
    split; [done|].
    rewrite ConfigureANGLE_closed.
    + by destruct a.
    + unfold QFile_open_ReadOnly. simpl in *. rewrite Hlookup.
      by destruct (_ || _).
Qed.

End Roundtrip.

(** C7 as stated fails twice. A process that resolved D3D9 and then had
    the preference file removed keeps D3D9 through the next
    [ConfigureANGLE], although the file is absent. A process that has
    resolved nothing logs the unknown-backend warning when the file is
    there and empty. *)
Lemma configure_keeps_a_resolved_backend_and_warns_on_an_empty_file :
  (QFile_exists (angleBackendFilePath healthy) (disk reverted) = false
   ∧ CurrentANGLE (ConfigureANGLE healthy reverted) = ANGLE.D3D9)
  ∧ (files (preferring "") !! angleBackendFilePath healthy = Some ""
     ∧ log (ConfigureANGLE healthy (start ∅ (preferring "")))
       = [unknown_backend ""]).
Proof. repeat split; by vm_compute. Qed.

(** ** The properties at work on sample machines *)

(** Three brackets on a blank disk, and a bracket opened over a sentinel
    left behind with other content. *)
Lemma three_brackets_on_a_blank_disk :
  (openglCheckFilePath healthy ∉ undeletable (disk fresh))
  ∧ LastCrashCheckFailed healthy fresh = false
  ∧ files (disk (Nat.iter 3 (guarded_cycle healthy) fresh))
      !! openglCheckFilePath healthy = None
  ∧ LastCrashCheckFailed healthy (Nat.iter 3 (guarded_cycle healthy) fresh) = false
  ∧ files (disk leftover) !! openglCheckFilePath healthy = Some "stale"
  ∧ files (disk (CrashCheckStart healthy leftover)) !! openglCheckFilePath healthy
    = Some "1".
Proof.
  assert (openglCheckFilePath healthy ∉ undeletable (disk fresh)) as Hdel
    by (rewrite <-(bool_decide_eq_true _); vm_compute; reflexivity).
  assert (LastCrashCheckFailed healthy fresh = false) as Habs
    by (vm_compute; reflexivity).
  destruct (guard_bracket_is_idempotent healthy fresh 3) as (Hcycles & _).
  destruct (Hcycles Hdel Habs) as [Hnone Hfalse].
  destruct (guard_bracket_is_idempotent healthy leftover 0) as (_ & Hstart & _).
  split; [exact Hdel|]. split; [exact Habs|].
  split; [exact Hnone|]. split; [exact Hfalse|].
  split; [vm_compute; reflexivity|].
  apply Hstart; [discriminate|].
  rewrite <-(bool_decide_eq_true _). vm_compute; reflexivity.
Defined.

(** A run that dies inside the bracket, seen from the next run. *)
Lemma open_bracket_on_a_blank_disk :
  accessible (openglCheckFilePath healthy) (disk fresh) = true
  ∧ LastCrashCheckFailed healthy (next_run ∅ (CrashCheckStart healthy fresh)) = true
  ∧ LastCrashCheckFailed healthy
      (CrashCheckFinish healthy
         (CrashCheckStart healthy (next_run ∅ (CrashCheckStart healthy fresh))))
    = false.
Proof.
  assert (accessible (openglCheckFilePath healthy) (disk fresh) = true) as Hacc
    by (vm_compute; reflexivity).
  split; [exact Hacc|].
  exact (open_bracket_is_seen_by_next_run healthy fresh ∅ Hacc).
Defined.

(** A context without framebuffers fails the probe although its shader
    links and its format has a core profile and 8 bits of alpha. *)
Lemma probe_without_framebuffers :
  ForceDisabled fresh = false
  ∧ isLinked without_framebuffers = true
  ∧ unprofiled without_framebuffers = false
  ∧ returned
      (CheckCapabilities (machine (Initialized (Some without_framebuffers)))
         None fresh)
    = Some zero.
Proof.
  split; [reflexivity|]. split; [reflexivity|]. split; [reflexivity|].
  apply (missing_feature_fails_the_probe
           (machine (Initialized (Some without_framebuffers))) None fresh
           (QSurfaceFormat.setAlphaBufferSize 8 QSurfaceFormat.default)
           without_framebuffers);
    [reflexivity | reflexivity | reflexivity | reflexivity
    | right; left; reflexivity].
Defined.

(** The record of a full probe on the healthy machine. *)
Lemma record_of_the_healthy_machine :
  returned (CheckCapabilities healthy None fresh)
  = Some {| supported := true; transparency := true |}
  ∧ (transparency {| supported := true; transparency := true |} = true →
     supported {| supported := true; transparency := true |} = true).
Proof.
  assert (returned (CheckCapabilities healthy None fresh)
          = Some {| supported := true; transparency := true |}) as Hret
    by (vm_compute; reflexivity).
  split; [exact Hret|].
  exact (proj1 (transparency_only_when_supported healthy None fresh _ Hret)).
Defined.

(** The calls of a full probe on the healthy machine, and of a probe on
    the machine whose [grabFramebuffer] throws. *)
Lemma calls_of_the_healthy_machine :
  ForceDisabled fresh = false
  ∧ (calls (final (CheckCapabilities healthy None fresh))
     = calls fresh
       ++ [CallCrashCheckStart; CallGrabFramebuffer; CallCrashCheckFinish]
     ∧ LastCrashCheckFailed healthy (final (CheckCapabilities healthy None fresh))
       = false)
  ∧ ∃ q, CheckCapabilities throwing None fresh = Propagates q
         ∧ calls q = calls fresh ++ [CallCrashCheckStart; CallGrabFramebuffer]
         ∧ LastCrashCheckFailed throwing q = true.
Proof.
  split; [reflexivity|]. split.
  - destruct (finish_follows_a_returning_grab healthy None fresh
                (QSurfaceFormat.setAlphaBufferSize 8 QSurfaceFormat.default)
                eq_refl eq_refl) as [Hreturns _].
    destruct (Hreturns (Some (full_context 8)) eq_refl) as [Hcalls Hgone].
    split; [exact Hcalls|].
    apply Hgone. rewrite <-(bool_decide_eq_false _). vm_compute; reflexivity.
  - destruct (finish_follows_a_returning_grab throwing None fresh
                (QSurfaceFormat.setAlphaBufferSize 8 QSurfaceFormat.default)
                eq_refl eq_refl) as [_ Hthrows].
    destruct (Hthrows eq_refl) as (q & Hends & Hcalls & Hkept).
    exists q. split; [exact Hends|]. split; [exact Hcalls|].
    apply Hkept; [discriminate|].
    rewrite <-(bool_decide_eq_true _). vm_compute; reflexivity.
Defined.

(** A machine that yields no context, the healthy machine, and every
    enumerator. *)
Lemma no_context_and_every_enumerator :
  probe_fails (machine (Initialized None)) None fresh = true
  ∧ (∃ p', CheckCapabilities (machine (Initialized None)) None fresh
           = Returns zero p')
  ∧ (∃ caps p', CheckCapabilities healthy None fresh = Returns caps p')
  ∧ Forall (λ a, ∃ p', ChangeANGLE in_order healthy (in_order a) fresh
                       = Returns tt p') ANGLE.all.
Proof.
  split; [reflexivity|]. split; [|split].
  - exact (proj1 (proj2 (failure_paths_return_normally in_order
                           (machine (Initialized None)) ANGLE.Auto None fresh))
             eq_refl).
  - apply (proj2 (proj2 (failure_paths_return_normally in_order
                           healthy ANGLE.Auto None fresh))).
    + intros format. eexists. reflexivity.
    + reflexivity.
  - unfold ANGLE.all.
    repeat (constructor;
            [exact (proj1 (failure_paths_return_normally in_order healthy _
                             None fresh))|]).
    constructor.
Defined.

(** D3D11on12 chosen on a blank disk and resolved by the next run. *)
Lemma d3d11on12_survives_restart :
  accessible (angleBackendFilePath healthy) (disk fresh) = true
  ∧ ∃ p', ChangeANGLE in_order healthy (in_order ANGLE.D3D11on12) fresh
          = Returns tt p'
          ∧ files (disk p') !! angleBackendFilePath healthy = Some "d3d11on12"
          ∧ CurrentANGLE (ConfigureANGLE healthy (next_run ∅ p')) = ANGLE.D3D11on12.
Proof.
  assert (accessible (angleBackendFilePath healthy) (disk fresh) = true) as Hacc
    by (vm_compute; reflexivity).
  split; [exact Hacc|].
  apply (backend_survives_restart in_order); [|exact Hacc].
  intros [] []; simpl; intros H; first [reflexivity | discriminate H].
Defined.

(** [ConfigureANGLE] on a blank disk, and on a disk whose preference file
    is empty. *)
Lemma configure_on_a_blank_disk :
  (QFile_open_ReadOnly (angleBackendFilePath healthy) (disk fresh) = None
   ∧ CurrentANGLE (ConfigureANGLE healthy fresh) = CurrentANGLE fresh
   ∧ log (ConfigureANGLE healthy fresh) = log fresh
   ∧ environ (ConfigureANGLE healthy fresh) !! DESKTOP_APP_QT_ANGLE_PLATFORM = None
   ∧ disk (ConfigureANGLE healthy fresh) = disk fresh)
  ∧ (QFile_open_ReadOnly (angleBackendFilePath healthy)
       (disk (start ∅ (preferring ""))) = Some ""
     ∧ CurrentANGLE (ConfigureANGLE healthy (start ∅ (preferring ""))) = ANGLE.Auto
     ∧ log (ConfigureANGLE healthy (start ∅ (preferring "")))
       = [unknown_backend ""]).
Proof.
  split.
  - split; [reflexivity|].
    exact (proj1 (configure_without_token healthy fresh) eq_refl).
  - split; [reflexivity|].
    destruct (proj2 (configure_without_token healthy (start ∅ (preferring "")))
                eq_refl) as (Hcurrent & Hlog & _).
    split; [exact Hcurrent|exact Hlog].
Defined.

(** A preference file that names no known backend. *)
Lemma configure_with_vulkan :
  ResolvedANGLE (start ∅ (preferring "vulkan")) = ANGLE.Auto
  ∧ CurrentANGLE (ConfigureANGLE healthy (start ∅ (preferring "vulkan")))
    = ANGLE.Auto
  ∧ log (ConfigureANGLE healthy (start ∅ (preferring "vulkan")))
    = log (start ∅ (preferring "vulkan"))
      ++ [unknown_backend (QFile_read 32 "vulkan")]
  ∧ environ (ConfigureANGLE healthy (start ∅ (preferring "vulkan")))
      !! DESKTOP_APP_QT_ANGLE_PLATFORM = None.
Proof.
  split; [reflexivity|].
  apply (unknown_token_warns_once healthy (start ∅ (preferring "vulkan")) "vulkan").
  - reflexivity.
  - vm_compute; reflexivity.
  - intros [] name [= <-]; reflexivity.
Defined.

(** * Further properties of the probe *)

(** ** What each step leaves alone *)

Lemma only_noted_refl p : only_noted p p.
Proof. by destruct p. Qed.

Lemma only_noted_trans p q r : only_noted p q → only_noted q r → only_noted p r.
Proof.
  unfold only_noted. destruct p, q, r; simpl. intros [= -> -> -> -> ->] [= -> -> -> -> ->].
  reflexivity.
Qed.

Lemma only_noted_LOG line p : only_noted p (LOG line p).
Proof. by destruct p. Qed.

Lemma only_noted_LOG_ONCE site line p : only_noted p (LOG_ONCE site line p).
Proof. unfold LOG_ONCE. case_bool_decide; by destruct p. Qed.

Lemma only_noted_extensionsLogged s context p :
  only_noted p (final (extensionsLogged s context p)).
Proof.
  unfold extensionsLogged, EGLExtensions.
  case_bool_decide; [apply only_noted_refl|].
  destruct (Q_OS_WIN s); [|by destruct p].
  destruct (platformNativeInterface s); by destruct p.
Qed.

(** [CheckContext] in two shapes: a context that fails a check logs once
    at one site and returns the zero record; a context that passes logs its
    profile, the extensions, and the version, each once. The sites and the
    lines do not depend on the process. *)
Lemma CheckContext_shape s context :
  (context_fails context = true
   ∧ ∃ site line, ∀ p,
       CheckContext s context p = Returns zero (LOG_ONCE site line p))
  ∨ (context_fails context = false
     ∧ ∃ site1 line1 site2 line2, ∀ p,
         CheckContext s context p =
         match extensionsLogged s context (LOG_ONCE site1 line1 p) with
         | Returns _ r => Returns (granted context) (LOG_ONCE site2 line2 r)
         | Propagates r => Propagates r
         | Dies why r => Dies why r
         end).
Proof.
  unfold context_fails, unprofiled, CheckContext, granted.
  destruct (NPOTTextures context); simpl; [|left; by eauto].
  destruct (Framebuffers context); simpl; [|left; by eauto].
  destruct (Shaders context); simpl; [|left; by eauto].
  destruct (isLinked context); simpl; [|left; by eauto].
  destruct (QSurfaceFormat.profile (context_format context));
    [destruct (QSurfaceFormat.renderableType (context_format context))|..];
    simpl; try (left; by eauto).
  all: right; split; [done|].
  all: destruct (8 <=? QSurfaceFormat.alphaBufferSize (context_format context));
    do 4 eexists; intros p; reflexivity.
Qed.

Lemma only_noted_CheckContext s context p :
  only_noted p (final (CheckContext s context p)).
Proof.
  destruct (CheckContext_shape s context)
    as [(_ & site & line & ->)|(_ & site1 & line1 & site2 & line2 & ->)].
  - apply only_noted_LOG_ONCE.
  - eapply only_noted_trans; [apply only_noted_LOG_ONCE|].
    pose proof (only_noted_extensionsLogged s context (LOG_ONCE site1 line1 p)) as H.
    destruct (extensionsLogged s context _); simpl in *; [|done..].
    eapply only_noted_trans; [exact H|apply only_noted_LOG_ONCE].
Qed.

Lemma elsewhere_kept_refl path p : elsewhere_kept path p p.
Proof. by repeat split. Qed.

Lemma elsewhere_kept_trans path p q r :
  elsewhere_kept path p q → elsewhere_kept path q r → elsewhere_kept path p r.
Proof.
  intros (? & ? & ? & ? & ? & ? & Hpq) (? & ? & ? & ? & ? & ? & Hqr).
  repeat split; try congruence.
  intros other Hne. by rewrite Hqr, Hpq.
Qed.

Lemma only_noted_elsewhere_kept path p r : only_noted p r → elsewhere_kept path p r.
Proof. intros ->. by repeat split. Qed.

Lemma elsewhere_kept_CrashCheckStart s p :
  elsewhere_kept (openglCheckFilePath s) p (CrashCheckStart s p).
Proof.
  unfold CrashCheckStart, QFile_open_WriteOnly, QFile_write. simpl.
  destruct (_ || _); simpl; repeat split; try done.
  intros other Hne. simpl. by rewrite !lookup_insert_ne by congruence.
Qed.

Lemma elsewhere_kept_CrashCheckFinish s p :
  elsewhere_kept (openglCheckFilePath s) p (CrashCheckFinish s p).
Proof.
  unfold CrashCheckFinish, QFile_remove. simpl.
  destruct (_ && _); simpl; repeat split; try done.
  intros other Hne. simpl. by rewrite lookup_delete_ne by congruence.
Qed.

Lemma elsewhere_kept_after_BugListInited s widget p :
  ForceDisabled p = false →
  elsewhere_kept (openglCheckFilePath s) (BugListInited s p)
    (final (CheckCapabilities s widget p)).
Proof.
  intros Hforce.
  destruct (requested widget p) as [format|q] eqn:Hr.
  - rewrite (CheckCapabilities_at_grab s widget p format Hforce Hr).
    set (b := BugListInited s p).
    assert (elsewhere_kept (openglCheckFilePath s) b
              (called CallGrabFramebuffer (CrashCheckStart s b))) as Hgrab.
    { eapply elsewhere_kept_trans; [apply elsewhere_kept_CrashCheckStart|].
      by repeat split. }
    destruct (grabFramebuffer s format) as [context| |]; simpl; [|done..].
    eapply elsewhere_kept_trans; [exact Hgrab|].
    eapply elsewhere_kept_trans; [apply elsewhere_kept_CrashCheckFinish|].
    apply only_noted_elsewhere_kept.
    destruct context as [context|]; [destruct (isValid context)|].
    + apply only_noted_CheckContext.
    + apply only_noted_LOG_ONCE.
    + apply only_noted_LOG_ONCE.
  - unfold CheckCapabilities. rewrite Hforce.
    unfold requested in *. apply only_noted_elsewhere_kept.
    destruct widget as [w|]; [|done].
    destruct (negb (windowHandle w || windowHandle_after_createWinId w));
      [simpl; apply only_noted_LOG|].
    destruct (negb (supportsOpenGL w)); [|done].
    simpl. apply only_noted_LOG_ONCE.
Qed.

(** X1. The probe changes no file but the sentinel, no access right of the
    disk, neither [ForceDisabled] nor [ResolvedANGLE], and of the
    environment at most [QT_OPENGL_BUGLIST], which it sets to the resource
    path only if that resource exists. *)
Theorem probe_touches_only_the_sentinel
    (s : System) (widget : option QWidget) (p : Process) :
  ForceDisabled (final (CheckCapabilities s widget p)) = ForceDisabled p
  ∧ ResolvedANGLE (final (CheckCapabilities s widget p)) = ResolvedANGLE p
  ∧ (∀ other, other ≠ openglCheckFilePath s →
       files (disk (final (CheckCapabilities s widget p))) !! other
       = files (disk p) !! other)
  ∧ unwritable (disk (final (CheckCapabilities s widget p))) = unwritable (disk p)
  ∧ unreadable (disk (final (CheckCapabilities s widget p))) = unreadable (disk p)
  ∧ undeletable (disk (final (CheckCapabilities s widget p))) = undeletable (disk p)
  ∧ (environ (final (CheckCapabilities s widget p)) = environ p
     ∨ gpu_driver_bug_list s = true
       ∧ environ (final (CheckCapabilities s widget p))
         = <["QT_OPENGL_BUGLIST" := ":/misc/gpu_driver_bug_list.json"]> (environ p)).
Proof.
  destruct (ForceDisabled p) eqn:Hforce.
  - unfold CheckCapabilities. rewrite Hforce. simpl.
    destruct (only_noted_elsewhere_kept "" p _
                (only_noted_LOG_ONCE 49 (say "OpenGL: Force-disabled.") p))
      as (? & ? & ? & ? & ? & ? & _).
    rewrite disk_LOG_ONCE. repeat split; try done; try congruence. by left.
  - destruct (elsewhere_kept_after_BugListInited s widget p Hforce)
      as (HF & HR & HE & HW & HRd & HD & Hfiles).
    rewrite HF, HR, HE, HW, HRd, HD, ForceDisabled_BugListInited, Hforce.
    rewrite disk_BugListInited.
    repeat split; try done.
    + unfold BugListInited. case_bool_decide; [done|].
      by destruct (gpu_driver_bug_list s).
    + intros other Hne. rewrite (Hfiles other Hne). by rewrite disk_BugListInited.
    + unfold BugListInited. case_bool_decide; [by left|].
      destruct (gpu_driver_bug_list s); [right|left]; done.
Qed.

(** ** The record of the probe *)

Lemma probe_fails_at_context s widget p format context :
  ForceDisabled p = false →
  requested widget p = inl format →
  grabFramebuffer s format = Initialized (Some context) →
  probe_fails s widget p = negb (isValid context) || context_fails context.
Proof.
  intros Hforce Hr Hg. unfold probe_fails, context_fails.
  rewrite Hforce, Hr, Hg. simpl.
  by destruct (isValid context), (NPOTTextures context), (Framebuffers context),
    (Shaders context), (isLinked context).
Qed.

Lemma CheckContext_record s context p caps :
  returned (CheckContext s context p) = Some caps →
  caps = if context_fails context then zero else granted context.
Proof.
  destruct (CheckContext_shape s context)
    as [(-> & site & line & ->)|(-> & site1 & line1 & site2 & line2 & ->)].
  - by intros [= <-].
  - destruct (extensionsLogged s context _); [|done..]. by intros [= <-].
Qed.

(** X2. Whenever [CheckCapabilities] returns, [supported] is set exactly if
    none of the conditions the code tests for failure holds. *)
Theorem supported_exactly_when_no_check_fails
    (s : System) (widget : option QWidget) (p : Process) (caps : Capabilities) :
  returned (CheckCapabilities s widget p) = Some caps →
  supported caps = negb (probe_fails s widget p).
Proof.
  intros Hret.
  destruct (probe_fails s widget p) eqn:Hfails.
  { destruct (probe_fails_returns_zero s widget p Hfails) as [p' Hzero].
    rewrite Hzero in Hret. by injection Hret as <-. }
  assert (ForceDisabled p = false) as Hforce.
  { unfold probe_fails in Hfails. by destruct (ForceDisabled p). }
  destruct (requested widget p) as [format|q] eqn:Hr.
  2: { unfold probe_fails in Hfails. rewrite Hforce, Hr in Hfails. done. }
  destruct (grabFramebuffer s format) as [[context|]| |] eqn:Hg.
  - rewrite (probe_fails_at_context s widget p format context Hforce Hr Hg)
      in Hfails.
    apply orb_false_elim in Hfails as [Hvalid%negb_false_iff Hpass].
    rewrite (CheckCapabilities_at_grab s widget p format Hforce Hr), Hg in Hret.
    simpl in Hret. rewrite Hvalid in Hret.
    apply CheckContext_record in Hret. by rewrite Hpass in Hret; subst caps.
  - unfold probe_fails in Hfails. by rewrite Hforce, Hr, Hg in Hfails.
  - rewrite (CheckCapabilities_at_grab s widget p format Hforce Hr), Hg in Hret.
    done.
  - rewrite (CheckCapabilities_at_grab s widget p format Hforce Hr), Hg in Hret.
    done.
Qed.

(** X3. When the probe grants support, [transparency] tells whether the
    format negotiated by the context has at least 8 bits of alpha. *)
Theorem transparency_is_eight_bits_of_alpha
    (s : System) (widget : option QWidget) (p : Process)
    (format : QSurfaceFormat.t) (context : QOpenGLContext) (caps : Capabilities) :
  ForceDisabled p = false →
  requested widget p = inl format →
  grabFramebuffer s format = Initialized (Some context) →
  returned (CheckCapabilities s widget p) = Some caps →
  supported caps = true →
  transparency caps
  = (8 <=? QSurfaceFormat.alphaBufferSize (context_format context)).
Proof.
  intros Hforce Hr Hg Hret Hsup.
  rewrite (CheckCapabilities_at_grab s widget p format Hforce Hr), Hg in Hret.
  simpl in Hret.
  destruct (isValid context).
  - apply CheckContext_record in Hret.
    destruct (context_fails context); by subst caps.
  - injection Hret as <-. done.
Qed.

(** ** Logging once *)

Lemma LOG_ONCE_seen site line p : site ∈ statics p → LOG_ONCE site line p = p.
Proof. intros Hin. unfold LOG_ONCE. by rewrite bool_decide_eq_true_2. Qed.

Lemma LOG_ONCE_marks site line p :
  site ∈ statics (LOG_ONCE site line p) ∧ statics p ⊆ statics (LOG_ONCE site line p).
Proof. unfold LOG_ONCE. case_bool_decide; simpl; set_solver. Qed.

Lemma LOG_ONCE_marked site line p : site ∈ statics (LOG_ONCE site line p).
Proof. exact (proj1 (LOG_ONCE_marks site line p)). Qed.

Lemma LOG_ONCE_grows site line p : statics p ⊆ statics (LOG_ONCE site line p).
Proof. exact (proj2 (LOG_ONCE_marks site line p)). Qed.

Lemma BugListInited_seen s p : 53%nat ∈ statics p → BugListInited s p = p.
Proof. intros Hin. unfold BugListInited. by rewrite bool_decide_eq_true_2. Qed.

Lemma BugListInited_marks s p :
  53%nat ∈ statics (BugListInited s p) ∧ statics p ⊆ statics (BugListInited s p).
Proof.
  unfold BugListInited. case_bool_decide; [set_solver|].
  destruct (gpu_driver_bug_list s); simpl; set_solver.
Qed.

Lemma extensionsLogged_seen s context p :
  146%nat ∈ statics p → extensionsLogged s context p = Returns tt p.
Proof. intros Hin. unfold extensionsLogged. by rewrite bool_decide_eq_true_2. Qed.

Lemma extensionsLogged_marks s context p u r :
  extensionsLogged s context p = Returns u r →
  146%nat ∈ statics r ∧ statics p ⊆ statics r.
Proof.
  unfold extensionsLogged, EGLExtensions. case_bool_decide.
  - intros [= _ <-]. set_solver.
  - destruct (Q_OS_WIN s); [destruct (platformNativeInterface s)|]; simpl;
      [|done|]; intros [= _ <-]; simpl; set_solver.
Qed.

Lemma guard_notes_nothing s p :
  statics (CrashCheckFinish s (called CallGrabFramebuffer (CrashCheckStart s p)))
  = statics p
  ∧ log (CrashCheckFinish s (called CallGrabFramebuffer (CrashCheckStart s p)))
    = log p
  ∧ environ (CrashCheckFinish s (called CallGrabFramebuffer (CrashCheckStart s p)))
    = environ p.
Proof.
  unfold CrashCheckFinish, CrashCheckStart. simpl.
  by destruct (QFile_open_WriteOnly _ _).
Qed.

Lemma CheckContext_again s context p caps p1 q :
  CheckContext s context p = Returns caps p1 →
  statics q = statics p1 →
  CheckContext s context q = Returns caps q.
Proof.
  destruct (CheckContext_shape s context)
    as [(_ & site & line & Hshape)|(_ & site1 & line1 & site2 & line2 & Hshape)];
    rewrite !Hshape.
  - intros [= <- <-] Hq. rewrite LOG_ONCE_seen; [done|].
    rewrite Hq. apply LOG_ONCE_marked.
  - destruct (extensionsLogged s context (LOG_ONCE site1 line1 p))
      as [u r| |] eqn:Hext; [|done..].
    intros [= <- <-] Hq.
    destruct (extensionsLogged_marks _ _ _ _ _ Hext) as [H146 Hsub].
    pose proof (LOG_ONCE_marks site1 line1 p) as [Hs1 _].
    pose proof (LOG_ONCE_marks site2 line2 r) as [Hs2 Hsub2].
    assert (site1 ∈ statics q ∧ 146%nat ∈ statics q ∧ site2 ∈ statics q)
      as (Hq1 & Hq146 & Hq2) by (rewrite Hq; clear Hq; set_solver).
    rewrite (LOG_ONCE_seen site1 line1 q Hq1).
    rewrite (extensionsLogged_seen s context q Hq146).
    by rewrite (LOG_ONCE_seen site2 line2 q Hq2).
Qed.

Lemma requested_format_has_window widget p format :
  requested widget p = inl format → window_missing widget = false.
Proof.
  unfold requested, window_missing. destruct widget as [w|]; [|done].
  by destruct (negb (windowHandle w || windowHandle_after_createWinId w)).
Qed.

(** X4. A probe that returned is repeated without a new log line and with
    the same record: every message of the probe is logged once per
    process. The one exception is the message of line 68 for a widget
    whose window cannot be created, which every call of a probe that is not
    force-disabled logs again. The statics and the environment are as the
    first probe left them. *)
Theorem repeated_probe_is_silent
    (s : System) (widget : option QWidget) (p p1 : Process) (caps : Capabilities) :
  CheckCapabilities s widget p = Returns caps p1 →
  ∃ p2, CheckCapabilities s widget p1 = Returns caps p2
        ∧ statics p2 = statics p1
        ∧ environ p2 = environ p1
        ∧ log p2
          = log p1
            ++ (if negb (ForceDisabled p) && window_missing widget
                then [say "OpenGL: Could not create window for widget."]
                else []).
Proof.
  intros Hfirst.
  destruct (ForceDisabled p) eqn:Hforce.
  { unfold CheckCapabilities in *. rewrite Hforce in Hfirst.
    injection Hfirst as <- <-.
    assert (ForceDisabled (LOG_ONCE 49 (say "OpenGL: Force-disabled.") p) = true)
      as -> by (unfold LOG_ONCE; by case_bool_decide).
    rewrite (LOG_ONCE_seen 49) by apply LOG_ONCE_marked.
    eexists. split; [reflexivity|]. by rewrite app_nil_r. }
  assert (ForceDisabled p1 = false) as Hforce1.
  { destruct (elsewhere_kept_after_BugListInited s widget p Hforce) as [HF _].
    rewrite Hfirst, ForceDisabled_BugListInited in HF. simpl in HF. congruence. }
  simpl.
  destruct (requested widget p) as [format|q] eqn:Hr.
  - rewrite (requested_format_has_window widget p format Hr).
    rewrite (CheckCapabilities_at_grab s widget p format Hforce Hr) in Hfirst.
    rewrite (CheckCapabilities_at_grab s widget p1 format Hforce1
               (requested_any_process widget p p1 format Hr)).
    destruct (grabFramebuffer s format) as [context| |]; [|done..].
    cbv zeta in *.
    set (b := BugListInited s p) in *.
    set (f := CrashCheckFinish s (called CallGrabFramebuffer (CrashCheckStart s b)))
      in *.
    destruct (guard_notes_nothing s b) as (Hfs & _).
    fold f in Hfs.
    assert (statics f ⊆ statics p1) as Hb.
    {
      destruct context as [context|]; [destruct (isValid context)|].
      - pose proof (only_noted_CheckContext s context f) as _.
        destruct (CheckContext_shape s context)
          as [(_ & site & line & Hshape)
             |(_ & site1 & line1 & site2 & line2 & Hshape)];
          rewrite Hshape in Hfirst.
        + injection Hfirst as _ <-. apply LOG_ONCE_grows.
        + destruct (extensionsLogged s context (LOG_ONCE site1 line1 f))
            as [u r| |] eqn:Hext; [|done..].
          injection Hfirst as _ <-.
          destruct (extensionsLogged_marks _ _ _ _ _ Hext) as [_ Hsub].
          pose proof (LOG_ONCE_marks site1 line1 f) as [_ Hsub1].
          pose proof (LOG_ONCE_marks site2 line2 r) as [_ Hsub2].
          clear Hfs. set_solver.
      - injection Hfirst as _ <-. apply LOG_ONCE_grows.
      - injection Hfirst as _ <-. apply LOG_ONCE_grows. }
    rewrite (BugListInited_seen s p1)
      by (pose proof (BugListInited_marks s p) as [H53 _]; fold b in H53;
          apply Hb; rewrite Hfs; exact H53).
    destruct (guard_notes_nothing s p1) as (Hs & Hl & He).
    set (f1 := CrashCheckFinish s
                 (called CallGrabFramebuffer (CrashCheckStart s p1))) in *.
    exists f1. rewrite app_nil_r. split; [|done].
    destruct context as [context|]; [destruct (isValid context)|].
    + by apply (CheckContext_again s context f caps p1 f1).
    + injection Hfirst as <- <-.
      rewrite LOG_ONCE_seen; [done|]. rewrite Hs. apply LOG_ONCE_marked.
    + injection Hfirst as <- <-.
      rewrite LOG_ONCE_seen; [done|]. rewrite Hs. apply LOG_ONCE_marked.
  - assert (∃ w, widget = Some w) as [w ->].
    { unfold requested in Hr. destruct widget as [w|]; [by eauto|done]. }
    unfold CheckCapabilities in *.
    rewrite Hforce in Hfirst. rewrite Hforce1.
    pose proof (BugListInited_marks s p) as [H53 _].
    unfold requested, window_missing in *.
    destruct (negb (windowHandle w || windowHandle_after_createWinId w)).
    + injection Hfirst as <- <-.
      rewrite (BugListInited_seen s (LOG _ _)) by done.
      eexists. split; [reflexivity|]. done.
    + destruct (negb (supportsOpenGL w)); [|done].
      injection Hfirst as <- <-.
      pose proof (LOG_ONCE_grows 72 (say "OpenGL: Not supported for window.")
                    (BugListInited s p)) as Hsub.
      rewrite (BugListInited_seen s (LOG_ONCE _ _ _)) by set_solver.
      rewrite (LOG_ONCE_seen 72) by apply LOG_ONCE_marked.
      eexists. split; [reflexivity|]. by rewrite app_nil_r.
Qed.

(** ** The probe and the state of the store *)

Lemma diskless_LOG_ONCE site line p :
  diskless (LOG_ONCE site line p) = LOG_ONCE site line (diskless p).
Proof. unfold LOG_ONCE. simpl. by case_bool_decide. Qed.

Lemma diskless_BugListInited s p :
  diskless (BugListInited s p) = BugListInited s (diskless p).
Proof.
  unfold BugListInited. simpl. case_bool_decide; [done|].
  by destruct (gpu_driver_bug_list s).
Qed.

Lemma diskless_CrashCheckStart s p :
  diskless (CrashCheckStart s p) = called CallCrashCheckStart (diskless p).
Proof. unfold CrashCheckStart. by destruct (QFile_open_WriteOnly _ _). Qed.

Lemma diskless_CrashCheckFinish s p :
  diskless (CrashCheckFinish s p) = called CallCrashCheckFinish (diskless p).
Proof. reflexivity. Qed.

Lemma diskless_extensionsLogged s context p :
  at_end diskless (extensionsLogged s context p)
  = extensionsLogged s context (diskless p).
Proof.
  unfold extensionsLogged, EGLExtensions. simpl. case_bool_decide; [done|].
  destruct (Q_OS_WIN s); [|done]. by destruct (platformNativeInterface s).
Qed.

Lemma diskless_CheckContext s context p :
  at_end diskless (CheckContext s context p) = CheckContext s context (diskless p).
Proof.
  destruct (CheckContext_shape s context)
    as [(_ & site & line & Hshape)|(_ & site1 & line1 & site2 & line2 & Hshape)];
    rewrite !Hshape; simpl.
  - by rewrite diskless_LOG_ONCE.
  - rewrite <-diskless_LOG_ONCE, <-diskless_extensionsLogged.
    destruct (extensionsLogged s context _); simpl; [|done..].
    by rewrite diskless_LOG_ONCE.
Qed.

Lemma diskless_CheckCapabilities s widget p q :
  diskless p = diskless q →
  at_end diskless (CheckCapabilities s widget p)
  = at_end diskless (CheckCapabilities s widget q).
Proof.
  intros Hpq.
  assert (ForceDisabled p = ForceDisabled q) as Hforce
    by exact (f_equal ForceDisabled Hpq).
  assert (diskless (BugListInited s p) = diskless (BugListInited s q)) as Hb
    by by rewrite !diskless_BugListInited, Hpq.
  unfold CheckCapabilities. rewrite <-Hforce.
  destruct (ForceDisabled p); simpl.
  { by rewrite !diskless_LOG_ONCE, Hpq. }
  set (bp := BugListInited s p) in *. set (bq := BugListInited s q) in *.
  assert (∀ b, diskless
                 (CrashCheckFinish s (called CallGrabFramebuffer (CrashCheckStart s b)))
               = called CallCrashCheckFinish
                   (called CallGrabFramebuffer
                      (called CallCrashCheckStart (diskless b)))) as Hguard.
  { intros b. rewrite diskless_CrashCheckFinish. f_equal.
    change (diskless (called CallGrabFramebuffer (CrashCheckStart s b)))
      with (called CallGrabFramebuffer (diskless (CrashCheckStart s b))).
    by rewrite diskless_CrashCheckStart. }
  assert (∀ b, diskless (called CallGrabFramebuffer (CrashCheckStart s b))
               = called CallGrabFramebuffer
                   (called CallCrashCheckStart (diskless b))) as Hgrab.
  { intros b.
    change (diskless (called CallGrabFramebuffer (CrashCheckStart s b)))
      with (called CallGrabFramebuffer (diskless (CrashCheckStart s b))).
    by rewrite diskless_CrashCheckStart. }
  unfold requested.
  destruct widget as [w|].
  - destruct (negb (windowHandle w || windowHandle_after_createWinId w)); simpl.
    { change (diskless (LOG ?l bp)) with (LOG l (diskless bp)).
      change (diskless (LOG ?l bq)) with (LOG l (diskless bq)).
      by rewrite Hb. }
    destruct (negb (supportsOpenGL w)); simpl.
    { by rewrite !diskless_LOG_ONCE, Hb. }
    destruct (grabFramebuffer s _) as [[context|]| |]; simpl;
      rewrite ?Hgrab, ?Hb; try done.
    + destruct (isValid context); simpl.
      * by rewrite !diskless_CheckContext, !Hguard, Hb.
      * by rewrite !diskless_LOG_ONCE, !Hguard, Hb.
    + by rewrite !diskless_LOG_ONCE, !Hguard, Hb.
  - destruct (grabFramebuffer s _) as [[context|]| |]; simpl;
      rewrite ?Hgrab, ?Hb; try done.
    + destruct (isValid context); simpl.
      * by rewrite !diskless_CheckContext, !Hguard, Hb.
      * by rewrite !diskless_LOG_ONCE, !Hguard, Hb.
    + by rewrite !diskless_LOG_ONCE, !Hguard, Hb.
Qed.

Lemma at_end_diskless {A} (c c' : Completion A) :
  at_end diskless c = at_end diskless c' →
  returned c = returned c'
  ∧ log (final c) = log (final c')
  ∧ statics (final c) = statics (final c')
  ∧ calls (final c) = calls (final c').
Proof.
  assert (∀ p q, diskless p = diskless q →
                 log p = log q ∧ statics p = statics q ∧ calls p = calls q) as Hfields.
  { intros p q H.
    exact (conj (f_equal log H) (conj (f_equal statics H) (f_equal calls H))). }
  destruct c as [a p|p|why p], c' as [a' p'|p'|why' p']; simpl; intros H;
    try discriminate H.
  - assert (a = a' ∧ diskless p = diskless p') as [-> Hd] by (split; congruence).
    split; [done|]. by apply Hfields.
  - assert (diskless p = diskless p') as Hd by congruence.
    split; [done|]. by apply Hfields.
  - assert (diskless p = diskless p') as Hd by congruence.
    split; [done|]. by apply Hfields.
Qed.

(** X5. What the disk holds, and what it refuses, has no influence on the
    probe: with any other disk in its place, [CheckCapabilities] returns
    the same record, or does not return either, and leaves the same log,
    statics and calls. *)
Theorem probe_does_not_depend_on_the_disk
    (s : System) (widget : option QWidget) (p : Process) (d : Disk) :
  returned (CheckCapabilities s widget (with_disk d p))
  = returned (CheckCapabilities s widget p)
  ∧ log (final (CheckCapabilities s widget (with_disk d p)))
    = log (final (CheckCapabilities s widget p))
  ∧ statics (final (CheckCapabilities s widget (with_disk d p)))
    = statics (final (CheckCapabilities s widget p))
  ∧ calls (final (CheckCapabilities s widget (with_disk d p)))
    = calls (final (CheckCapabilities s widget p)).
Proof.
  apply at_end_diskless. by apply diskless_CheckCapabilities.
Qed.

(** X6. A sentinel that cannot be written hides a crash. When the path of
    the sentinel is empty or the store refuses to open it for writing, a
    process that the driver ends inside [grabFramebuffer] leaves the disk as
    it found it: the next run gets from [LastCrashCheckFailed] the answer
    it would have got before the probe. *)
Theorem refused_sentinel_hides_a_crash
    (s : System) (widget : option QWidget) (p : Process)
    (format : QSurfaceFormat.t) (e : gmap string string) :
  openglCheckFilePath s = "" ∨ openglCheckFilePath s ∈ unwritable (disk p) →
  ForceDisabled p = false →
  requested widget p = inl format →
  grabFramebuffer s format = Crashes →
  ∃ q, CheckCapabilities s widget p = Dies DriverCrash q
       ∧ disk q = disk p
       ∧ LastCrashCheckFailed s (next_run e q) = LastCrashCheckFailed s p.
Proof.
  intros Hrefused Hforce Hr Hg.
  rewrite (CheckCapabilities_at_grab s widget p format Hforce Hr), Hg.
  eexists. split; [reflexivity|].
  assert (disk (called CallGrabFramebuffer (CrashCheckStart s (BugListInited s p)))
          = disk p) as Hdisk.
  { simpl. rewrite CrashCheckStart_refused; [apply disk_BugListInited|].
    by rewrite disk_BugListInited. }
  split; [exact Hdisk|].
  unfold LastCrashCheckFailed, next_run. simpl in *. by rewrite Hdisk.
Qed.

(** X7. A sentinel that cannot be removed reports a crash that did not
    happen. When the store lets the sentinel be written and refuses to
    remove it, a probe whose [grabFramebuffer] returns ends with the
    sentinel in place, whatever the probe found: [LastCrashCheckFailed]
    answers true from then on, in this run and the next. *)
Theorem kept_sentinel_reports_a_crash
    (s : System) (widget : option QWidget) (p : Process)
    (format : QSurfaceFormat.t) (context : option QOpenGLContext)
    (e : gmap string string) :
  openglCheckFilePath s ≠ "" →
  openglCheckFilePath s ∉ unwritable (disk p) →
  openglCheckFilePath s ∈ undeletable (disk p) →
  ForceDisabled p = false →
  requested widget p = inl format →
  grabFramebuffer s format = Initialized context →
  LastCrashCheckFailed s (final (CheckCapabilities s widget p)) = true
  ∧ LastCrashCheckFailed s (next_run e (final (CheckCapabilities s widget p)))
    = true.
Proof.
  intros Hne Hw Hdel Hforce Hr Hg.
  assert (files (disk (final (CheckCapabilities s widget p)))
            !! openglCheckFilePath s = Some "1") as Hfile.
  { rewrite (CheckCapabilities_at_grab s widget p format Hforce Hr), Hg.
    cbv zeta.
    set (g := called CallGrabFramebuffer (CrashCheckStart s (BugListInited s p))).
    assert (disk (CrashCheckFinish s g) = disk g) as Hkept.
    { apply CrashCheckFinish_refused. subst g. simpl.
      destruct (CrashCheckStart_permissions s (BugListInited s p)) as (_ & _ & ->).
      by rewrite disk_BugListInited. }
    assert (files (disk g) !! openglCheckFilePath s = Some "1") as Hwritten.
    { subst g. simpl.
      rewrite CrashCheckStart_writes by by rewrite ?disk_BugListInited.
      apply lookup_insert_eq. }
    destruct context as [context|]; [destruct (isValid context)|]; simpl.
    - destruct (CheckContext_keeps s context (CrashCheckFinish s g)) as [-> _].
      by rewrite Hkept.
    - by rewrite disk_LOG_ONCE, Hkept.
    - by rewrite disk_LOG_ONCE, Hkept. }
  unfold LastCrashCheckFailed, QFile_exists, next_run. simpl. rewrite Hfile.
  split; by apply bool_decide_eq_true_2.
Qed.

(** * Further properties of the backend preference *)

Section Resolution.

Variable s : System.

Local Abbreviation preference := (angleBackendFilePath s).

Lemma named_QFile_read content : named (QFile_read 32 content) = named content.
Proof. unfold named. by rewrite !prefix_QFile_read by (simpl; lia). Qed.

Lemma token_of_named bytes a : named bytes = Some a → is_Some (token a).
Proof. unfold named. repeat case_match; intros [= <-]; by eexists. Qed.

(** [ConfigureANGLE] on a file that opens, told by [named]. *)
Lemma ConfigureANGLE_named p content :
  QFile_open_ReadOnly preference (disk p) = Some content →
  ConfigureANGLE s p =
  let q :=
    match named content with
    | Some a =>
        with_ResolvedANGLE a
          (with_environ
             (<[DESKTOP_APP_QT_ANGLE_PLATFORM := default "" (token a)]>
                (delete DESKTOP_APP_QT_ANGLE_PLATFORM (environ p))) p)
    | None => qunsetenv DESKTOP_APP_QT_ANGLE_PLATFORM p
    end in
  if bool_decide (ResolvedANGLE q = ANGLE.Auto)
  then LOG (unknown_backend (QFile_read 32 content)) q else q.
Proof.
  intros Hopen. rewrite (ConfigureANGLE_open s p content Hopen). cbv zeta.
  rewrite <-(named_QFile_read content). unfold named, check.
  destruct (String.prefix "gl" _), (String.prefix "d3d9" _),
    (String.prefix "d3d11" _), (String.prefix "d3d11on12" _); simpl;
    unfold qputenv, qunsetenv; simpl; rewrite ?insert_insert_eq; reflexivity.
Qed.

Lemma ConfigureANGLE_resolution p content :
  QFile_open_ReadOnly preference (disk p) = Some content →
  CurrentANGLE (ConfigureANGLE s p) = default (CurrentANGLE p) (named content)
  ∧ environ (ConfigureANGLE s p) !! DESKTOP_APP_QT_ANGLE_PLATFORM
    = named content ≫= token
  ∧ log (ConfigureANGLE s p)
    = log p ++ (if bool_decide (named content = None ∧ CurrentANGLE p = ANGLE.Auto)
                then [unknown_backend (QFile_read 32 content)] else [])
  ∧ disk (ConfigureANGLE s p) = disk p.
Proof.
  intros Hopen. rewrite (ConfigureANGLE_named p content Hopen). cbv zeta.
  unfold CurrentANGLE.
  destruct (named content) as [a|] eqn:Hnamed.
  - destruct (token_of_named content a Hnamed) as [name Htoken].
    rewrite Htoken.
    assert (a ≠ ANGLE.Auto) as Hauto by (by intros ->).
    repeat case_bool_decide; simpl in *;
      try (exfalso; intuition congruence);
      by rewrite ?lookup_insert_eq, ?app_nil_r.
  - repeat case_bool_decide; simpl in *;
      try (exfalso; intuition congruence);
      by rewrite ?lookup_delete_eq, ?app_nil_r.
Qed.


(** X8. When the preference file opens, [ConfigureANGLE] resolves the
    backend whose name the content starts with, whatever follows the name
    and whatever backend was resolved before; d3d11on12 is resolved as
    such and not as d3d11. The directive is then the name of that backend.
    When the content starts with no name, the backend stays as it was and
    there is no directive, and the warning, which quotes at most 32 bytes
    of the file, is logged only if the backend that stays is [Auto].
    Nothing is written to the disk. *)
Theorem configure_resolves_the_named_backend (p : Process) (content : string) :
  QFile_open_ReadOnly preference (disk p) = Some content →
  CurrentANGLE (ConfigureANGLE s p) = default (CurrentANGLE p) (named content)
  ∧ environ (ConfigureANGLE s p) !! DESKTOP_APP_QT_ANGLE_PLATFORM
    = named content ≫= token
  ∧ log (ConfigureANGLE s p)
    = log p ++ (if bool_decide (named content = None ∧ CurrentANGLE p = ANGLE.Auto)
                then [unknown_backend (QFile_read 32 content)] else [])
  ∧ disk (ConfigureANGLE s p) = disk p.
Proof. apply ConfigureANGLE_resolution. Qed.

(** X9. After [ConfigureANGLE], a directive that is published names the
    backend that [CurrentANGLE] reports. *)
Theorem directive_names_the_current_backend (p : Process) (name : string) :
  environ (ConfigureANGLE s p) !! DESKTOP_APP_QT_ANGLE_PLATFORM = Some name →
  token (CurrentANGLE (ConfigureANGLE s p)) = Some name.
Proof.
  destruct (QFile_open_ReadOnly preference (disk p)) as [content|] eqn:Hopen.
  - destruct (ConfigureANGLE_resolution p content Hopen) as (-> & -> & _).
    destruct (named content) as [a|]; [|done]. done.
  - rewrite (ConfigureANGLE_closed s p Hopen). simpl.
    by rewrite lookup_delete_eq.
Qed.

(** X10. [ConfigureANGLE] called again, with the file as it was, resolves
    the same backend, publishes the same environment and logs the same
    lines once more. *)
Theorem configure_again_changes_nothing (p : Process) :
  CurrentANGLE (ConfigureANGLE s (ConfigureANGLE s p))
  = CurrentANGLE (ConfigureANGLE s p)
  ∧ environ (ConfigureANGLE s (ConfigureANGLE s p)) = environ (ConfigureANGLE s p)
  ∧ disk (ConfigureANGLE s (ConfigureANGLE s p)) = disk p
  ∧ ∃ lines, log (ConfigureANGLE s p) = log p ++ lines
             ∧ log (ConfigureANGLE s (ConfigureANGLE s p))
               = log (ConfigureANGLE s p) ++ lines.
Proof.
  destruct (QFile_open_ReadOnly preference (disk p)) as [content|] eqn:Hopen.
  - assert (QFile_open_ReadOnly preference (disk (ConfigureANGLE s p))
            = Some content) as Hopen'.
    { destruct (ConfigureANGLE_resolution p content Hopen) as (_ & _ & _ & ->).
      exact Hopen. }
    destruct (ConfigureANGLE_resolution p content Hopen)
      as (Hc & _ & Hl & Hd).
    destruct (ConfigureANGLE_resolution _ content Hopen')
      as (Hc' & _ & Hl' & Hd').
    split; [|split; [|split]].
    + rewrite Hc', Hc. by destruct (named content).
    + rewrite (ConfigureANGLE_named (ConfigureANGLE s p) content Hopen').
      rewrite (ConfigureANGLE_named p content Hopen). cbv zeta.
      destruct (named content) as [a|]; repeat case_bool_decide; simpl;
        by rewrite ?delete_insert_eq, ?delete_delete_eq.
    + by rewrite Hd', Hd.
    + eexists. split; [exact Hl|]. rewrite Hl'. do 2 f_equal.
      rewrite Hc. destruct (named content) as [a|]; [|done].
      by rewrite !(bool_decide_eq_false_2 (_ ∧ _)) by (by intros [? _]).
  - assert (QFile_open_ReadOnly preference (disk (ConfigureANGLE s p)) = None)
      as Hopen' by by rewrite (ConfigureANGLE_closed s p Hopen).
    rewrite (ConfigureANGLE_closed s _ Hopen'), (ConfigureANGLE_closed s p Hopen).
    simpl. rewrite delete_delete_eq.
    repeat split. exists []. by rewrite !app_nil_r.
Qed.

End Resolution.

Lemma elsewhere_kept_write path name p : elsewhere_kept path p (write path name p).
Proof.
  unfold write, QFile_open_WriteOnly, QFile_write.
  destruct (_ || _); simpl; repeat split; try done.
  intros other Hne. simpl. by rewrite !lookup_insert_ne by congruence.
Qed.

Lemma elsewhere_kept_remove path p :
  elsewhere_kept path p (with_disk (QFile_remove path (disk p)).2 p).
Proof.
  unfold QFile_remove.
  destruct (_ && _); simpl; repeat split; try done.
  intros other Hne. simpl. by rewrite lookup_delete_ne by congruence.
Qed.

Section Change.

Variable underlying : ANGLE.t → Z.

Variable s : System.

Local Abbreviation preference := (angleBackendFilePath s).

(** X11. [ChangeANGLE], whatever integer it is given, leaves the running
    process as it is: [CurrentANGLE], the environment with its directive
    and [ForceDisabled] are unchanged, and so are all files but the
    preference file and all access rights of the disk. *)
Theorem change_leaves_the_process_alone (backend : Z) (p : Process) :
  CurrentANGLE (final (ChangeANGLE underlying s backend p)) = CurrentANGLE p
  ∧ environ (final (ChangeANGLE underlying s backend p)) = environ p
  ∧ ForceDisabled (final (ChangeANGLE underlying s backend p)) = ForceDisabled p
  ∧ unwritable (disk (final (ChangeANGLE underlying s backend p)))
    = unwritable (disk p)
  ∧ unreadable (disk (final (ChangeANGLE underlying s backend p)))
    = unreadable (disk p)
  ∧ undeletable (disk (final (ChangeANGLE underlying s backend p)))
    = undeletable (disk p)
  ∧ ∀ other, other ≠ preference →
      files (disk (final (ChangeANGLE underlying s backend p))) !! other
      = files (disk p) !! other.
Proof.
  assert (elsewhere_kept preference p (final (ChangeANGLE underlying s backend p)))
    as (? & ? & ? & ? & ? & ? & ?).
  { unfold ChangeANGLE.
    repeat (case_match; simpl;
            [first [apply elsewhere_kept_remove | apply elsewhere_kept_write]|]).
    apply elsewhere_kept_refl. }
  unfold CurrentANGLE. by repeat split.
Qed.

(** X12. [ChangeANGLE] reaches the [default] of its switch, where the
    process ends in [Unexpected] with the preference file untouched,
    exactly when the integer it is given is no enumerator's. *)
Theorem change_fails_exactly_outside_the_enumeration (backend : Z) (p : Process) :
  (∀ a, backend ≠ underlying a)
  ↔ ChangeANGLE underlying s backend p
    = Dies (Unexpected "ANGLE backend value.") p.
Proof.
  split.
  - apply ChangeANGLE_outside.
  - intros Hdies a ->.
    destruct (ChangeANGLE_returns underlying s a p) as [p' Hreturns].
    rewrite Hreturns in Hdies. discriminate Hdies.
Qed.

Hypothesis underlying_inj : ∀ a b, underlying a = underlying b → a = b.

(** X13. When the preference file cannot be opened for writing,
    [ChangeANGLE] with a backend other than [Auto] returns with the disk
    as it was, so the earlier preference stays in force, and with one
    warning logged. With [Auto] and a file that the store refuses to
    remove, it returns with the disk as it was and nothing logged. *)
Theorem refused_change_keeps_the_preference (a : ANGLE.t) (p : Process) :
  (∀ name, token a = Some name →
     preference = "" ∨ preference ∈ unwritable (disk p) →
     ChangeANGLE underlying s (underlying a) p
     = Returns tt
         (LOG (say1 "ANGLE Warning: Could not write to %1." (Str preference)) p))
  ∧ (a = ANGLE.Auto →
     preference ∈ undeletable (disk p) →
     ∃ p', ChangeANGLE underlying s (underlying a) p = Returns tt p'
           ∧ disk p' = disk p ∧ log p' = log p).
Proof.
  rewrite (ChangeANGLE_enumerator underlying underlying_inj). split.
  - intros name -> Hrefused. f_equal.
    unfold write, QFile_open_WriteOnly, isEmpty.
    destruct Hrefused as [Hempty|Hdenied].
    + by rewrite (bool_decide_eq_true_2 _ Hempty).
    + by rewrite (bool_decide_eq_true_2 _ Hdenied), orb_true_r.
  - intros -> Hdenied. simpl. eexists. split; [reflexivity|].
    unfold QFile_remove. simpl.
    rewrite (bool_decide_eq_true_2 _ Hdenied). by rewrite andb_false_r.
Qed.

Lemma ChangeANGLE_file a p :
  preference ≠ "" →
  preference ∉ unwritable (disk p) →
  preference ∉ undeletable (disk p) →
  ∃ p', ChangeANGLE underlying s (underlying a) p = Returns tt p'
        ∧ files (disk p') !! preference = token a
        ∧ unwritable (disk p') = unwritable (disk p)
        ∧ unreadable (disk p') = unreadable (disk p)
        ∧ undeletable (disk p') = undeletable (disk p).
Proof.
  intros Hne Hw Hd.
  rewrite (ChangeANGLE_enumerator underlying underlying_inj).
  eexists. split; [reflexivity|].
  destruct (token a) as [name|].
  - destruct (elsewhere_kept_write preference name p) as (_ & _ & _ & -> & -> & -> & _).
    destruct (write_stores s name p Hne Hw) as [-> _].
    by rewrite lookup_insert_eq.
  - destruct (elsewhere_kept_remove preference p) as (_ & _ & _ & -> & -> & -> & _).
    destruct (QFile_remove_deletes preference (disk p) Hd) as [Hfiles _].
    simpl. by rewrite Hfiles, lookup_delete_eq.
Qed.

Lemma ConfigureANGLE_next_run a q e :
  preference ≠ "" →
  preference ∉ unreadable (disk q) →
  files (disk q) !! preference = token a →
  CurrentANGLE (ConfigureANGLE s (next_run e q)) = a.
Proof.
  intros Hne Hr Hfile.
  assert (QFile_open_ReadOnly preference (disk (next_run e q)) = token a) as Hopen.
  { unfold QFile_open_ReadOnly, isEmpty, next_run. simpl.
    by rewrite bool_decide_eq_false_2, bool_decide_eq_false_2. }
  destruct (token a) as [name|] eqn:Htoken.
  - by apply (ConfigureANGLE_token s a name).
  - rewrite (ConfigureANGLE_closed s _ Hopen). by destruct a.
Qed.

(** X14. Of two changes in a row the later one counts. On a store that
    refuses no access to the preference file, after [ChangeANGLE] with one
    backend and then with another, the file is what the second alone would
    have left, and [ConfigureANGLE] in the next run resolves the second. *)
Theorem the_last_change_wins
    (a b : ANGLE.t) (p : Process) (e : gmap string string) :
  accessible preference (disk p) = true →
  ∃ p1 p2, ChangeANGLE underlying s (underlying a) p = Returns tt p1
           ∧ ChangeANGLE underlying s (underlying b) p1 = Returns tt p2
           ∧ files (disk p2) !! preference = token b
           ∧ CurrentANGLE (ConfigureANGLE s (next_run e p2)) = b.
Proof.
  intros (Hne & Hw & Hr & Hd)%accessible_spec.
  destruct (ChangeANGLE_file a p Hne Hw Hd) as (p1 & H1 & _ & Hw1 & Hr1 & Hd1).
  destruct (ChangeANGLE_file b p1 Hne) as (p2 & H2 & Hfile & _ & Hr2 & _);
    [by rewrite Hw1|by rewrite Hd1|].
  exists p1, p2. split; [done|]. split; [done|]. split; [done|].
  apply ConfigureANGLE_next_run; [done| |done]. by rewrite Hr2, Hr1.
Qed.

End Change.

(** * The EGL extension names *)

Lemma QByteArray_split_nonempty sep names : QByteArray_split sep names ≠ [].
Proof.
  destruct names as [|c rest]; [done|]. simpl.
  case_bool_decide; [done|]. by destruct (QByteArray_split sep rest).
Qed.

Lemma concat_QByteArray_split sep names :
  String.concat (String sep "") (QByteArray_split sep names) = names.
Proof.
  induction names as [|c rest IH]; [done|]. simpl.
  pose proof (QByteArray_split_nonempty sep rest) as Hne.
  case_bool_decide as Hsep.
  - subst c. destruct (QByteArray_split sep rest) as [|head tail]; [done|].
    simpl in *. by rewrite IH.
  - destruct (QByteArray_split sep rest) as [|head tail]; [done|].
    destruct tail as [|next tail]; simpl in *; by rewrite <-IH.
Qed.

Lemma QByteArray_split_without_separator sep names :
  Forall (λ name, sep ∉ String.list_ascii_of_string name) (QByteArray_split sep names).
Proof.
  induction names as [|c rest IH]; simpl.
  - repeat constructor. by intros ?%elem_of_nil.
  - case_bool_decide as Hsep.
    + constructor; [|done]. by intros ?%elem_of_nil.
    + destruct (QByteArray_split sep rest) as [|head tail].
      * repeat constructor. simpl.
        intros [?|?%elem_of_nil]%elem_of_cons; [congruence|done].
      * inversion IH as [|? ? Hhead Htail]; subst. constructor; [|done]. simpl.
        intros [?|?]%elem_of_cons; [congruence|done].
Qed.

(** X15. [EGLExtensions] asserts that Qt has a native interface and ends
    the process otherwise. With the interface and no EGL display it returns
    no name. With a display it returns the extension string cut at every
    blank: the names, joined by blanks again, give that string back, and no
    name holds a blank. *)
Theorem EGLExtensions_cuts_at_blanks (s : System) (p : Process) :
  (platformNativeInterface s = false →
   EGLExtensions s p = Dies (AssertFailed "native != nullptr") p)
  ∧ (platformNativeInterface s = true → egldisplay s = None →
     EGLExtensions s p = Returns [] p)
  ∧ (∀ names, platformNativeInterface s = true → egldisplay s = Some names →
     ∃ list, EGLExtensions s p = Returns list p
             ∧ String.concat " " list = names
             ∧ Forall (λ name, " "%char ∉ String.list_ascii_of_string name) list).
Proof.
  unfold EGLExtensions. split; [|split].
  - by intros ->.
  - by intros -> ->.
  - intros names -> ->. simpl. eexists. split; [reflexivity|]. split.
    + apply concat_QByteArray_split.
    + apply QByteArray_split_without_separator.
Qed.

(** * The further properties at work on sample machines *)

(** A probe on a disk that holds a preference leaves that file alone. *)
Lemma probe_beside_a_preference :
  angleBackendFilePath healthy ≠ openglCheckFilePath healthy
  ∧ files (disk (final (CheckCapabilities healthy None (start ∅ (preferring "gl")))))
      !! angleBackendFilePath healthy = Some "gl".
Proof.
  assert (angleBackendFilePath healthy ≠ openglCheckFilePath healthy) as Hne
    by discriminate.
  split; [exact Hne|].
  destruct (probe_touches_only_the_sentinel healthy None (start ∅ (preferring "gl")))
    as (_ & _ & Hfiles & _).
  rewrite (Hfiles _ Hne). vm_compute; reflexivity.
Defined.

(** The healthy machine passes every check and is granted support. *)
Lemma healthy_machine_is_supported :
  returned (CheckCapabilities healthy None fresh)
  = Some {| supported := true; transparency := true |}
  ∧ probe_fails healthy None fresh = false.
Proof.
  assert (returned (CheckCapabilities healthy None fresh)
          = Some {| supported := true; transparency := true |}) as Hret
    by (vm_compute; reflexivity).
  split; [exact Hret|].
  apply negb_true_iff. symmetry.
  exact (supported_exactly_when_no_check_fails healthy None fresh _ Hret).
Defined.

(** A machine that negotiates no alpha is supported without transparency. *)
Lemma machine_without_alpha :
  returned (CheckCapabilities (machine (Initialized (Some (full_context 0))))
              None fresh)
  = Some {| supported := true; transparency := false |}
  ∧ transparency {| supported := true; transparency := false |}
    = (8 <=? QSurfaceFormat.alphaBufferSize (context_format (full_context 0))).
Proof.
  assert (returned (CheckCapabilities
                      (machine (Initialized (Some (full_context 0)))) None fresh)
          = Some {| supported := true; transparency := false |}) as Hret
    by (vm_compute; reflexivity).
  split; [exact Hret|].
  exact (transparency_is_eight_bits_of_alpha
           (machine (Initialized (Some (full_context 0)))) None fresh
           (QSurfaceFormat.setAlphaBufferSize 8 QSurfaceFormat.default)
           (full_context 0) _ eq_refl eq_refl eq_refl Hret eq_refl).
Defined.

(** The healthy machine probed twice, and a widget without window probed
    twice. *)
Lemma probes_repeated :
  (∃ p2, CheckCapabilities healthy None (final (CheckCapabilities healthy None fresh))
         = Returns {| supported := true; transparency := true |} p2
         ∧ log p2 = log (final (CheckCapabilities healthy None fresh)))
  ∧ (∃ p2, CheckCapabilities healthy (Some windowless)
             (final (CheckCapabilities healthy (Some windowless) fresh))
           = Returns zero p2
           ∧ log p2 = [say "OpenGL: Could not create window for widget.";
                       say "OpenGL: Could not create window for widget."]).
Proof.
  split.
  - assert (CheckCapabilities healthy None fresh
            = Returns {| supported := true; transparency := true |}
                (final (CheckCapabilities healthy None fresh))) as Hfirst
      by (vm_compute; reflexivity).
    destruct (repeated_probe_is_silent healthy None fresh _ _ Hfirst)
      as (p2 & Hsecond & _ & _ & Hlog).
    exists p2. split; [exact Hsecond|]. rewrite Hlog. apply app_nil_r.
  - assert (CheckCapabilities healthy (Some windowless) fresh
            = Returns zero
                (final (CheckCapabilities healthy (Some windowless) fresh)))
      as Hfirst by (vm_compute; reflexivity).
    destruct (repeated_probe_is_silent healthy (Some windowless) fresh _ _ Hfirst)
      as (p2 & Hsecond & _ & _ & Hlog).
    exists p2. split; [exact Hsecond|]. rewrite Hlog. vm_compute; reflexivity.
Defined.

(** A driver crash over a sentinel that cannot be written. *)
Lemma crash_on_a_write_protected_disk :
  openglCheckFilePath (machine Crashes) ∈ unwritable (disk (start ∅ write_protected))
  ∧ ∃ q, CheckCapabilities (machine Crashes) None (start ∅ write_protected)
         = Dies DriverCrash q
         ∧ LastCrashCheckFailed (machine Crashes) (next_run ∅ q) = false.
Proof.
  assert (openglCheckFilePath (machine Crashes)
            ∈ unwritable (disk (start ∅ write_protected))) as Hdenied
    by (rewrite <-(bool_decide_eq_true _); vm_compute; reflexivity).
  split; [exact Hdenied|].
  destruct (refused_sentinel_hides_a_crash (machine Crashes) None
              (start ∅ write_protected)
              (QSurfaceFormat.setAlphaBufferSize 8 QSurfaceFormat.default) ∅
              (or_intror Hdenied) eq_refl eq_refl eq_refl)
    as (q & Hdies & _ & Hsame).
  exists q. split; [exact Hdies|]. rewrite Hsame. vm_compute; reflexivity.
Defined.

(** A full probe over a sentinel that cannot be removed. *)
Lemma probe_on_a_sticky_disk :
  openglCheckFilePath healthy ∈ undeletable (disk (start ∅ sticky))
  ∧ returned (CheckCapabilities healthy None (start ∅ sticky))
    = Some {| supported := true; transparency := true |}
  ∧ LastCrashCheckFailed healthy
      (final (CheckCapabilities healthy None (start ∅ sticky))) = true.
Proof.
  assert (openglCheckFilePath healthy ∈ undeletable (disk (start ∅ sticky)))
    as Hkept by (rewrite <-(bool_decide_eq_true _); vm_compute; reflexivity).
  assert (openglCheckFilePath healthy ∉ unwritable (disk (start ∅ sticky)))
    as Hw by (rewrite <-(bool_decide_eq_true _); vm_compute; reflexivity).
  split; [exact Hkept|]. split; [vm_compute; reflexivity|].
  refine (proj1 (kept_sentinel_reports_a_crash healthy None (start ∅ sticky)
                   (QSurfaceFormat.setAlphaBufferSize 8 QSurfaceFormat.default)
                   (Some (full_context 8)) ∅ _ Hw Hkept eq_refl eq_refl eq_refl)).
  discriminate.
Defined.

(** A preference file with more than a name in it. *)
Lemma configure_with_a_suffix :
  QFile_open_ReadOnly (angleBackendFilePath healthy)
    (disk (start ∅ (preferring "d3d11on12 (forced)"))) = Some "d3d11on12 (forced)"
  ∧ CurrentANGLE (ConfigureANGLE healthy (start ∅ (preferring "d3d11on12 (forced)")))
    = ANGLE.D3D11on12
  ∧ environ (ConfigureANGLE healthy (start ∅ (preferring "d3d11on12 (forced)")))
      !! DESKTOP_APP_QT_ANGLE_PLATFORM = Some "d3d11on12"
  ∧ log (ConfigureANGLE healthy (start ∅ (preferring "d3d11on12 (forced)"))) = [].
Proof.
  split; [reflexivity|].
  destruct (configure_resolves_the_named_backend healthy
              (start ∅ (preferring "d3d11on12 (forced)")) "d3d11on12 (forced)"
              eq_refl) as (Hcurrent & Hdirective & Hlog & _).
  split; [exact Hcurrent|]. split; [exact Hdirective|exact Hlog].
Defined.

(** The directive of a process configured from a file naming OpenGL. *)
Lemma directive_for_gl :
  environ (ConfigureANGLE healthy (start ∅ (preferring "gl")))
    !! DESKTOP_APP_QT_ANGLE_PLATFORM = Some "gl"
  ∧ token (CurrentANGLE (ConfigureANGLE healthy (start ∅ (preferring "gl"))))
    = Some "gl".
Proof.
  assert (environ (ConfigureANGLE healthy (start ∅ (preferring "gl")))
            !! DESKTOP_APP_QT_ANGLE_PLATFORM = Some "gl") as Hdirective
    by (vm_compute; reflexivity).
  split; [exact Hdirective|].
  exact (directive_names_the_current_backend healthy _ "gl" Hdirective).
Defined.

(** A change of preference next to a sentinel left by a crashed run. *)
Lemma change_beside_a_sentinel :
  openglCheckFilePath healthy ≠ angleBackendFilePath healthy
  ∧ files (disk (final (ChangeANGLE in_order healthy (in_order ANGLE.D3D9) leftover)))
      !! openglCheckFilePath healthy = Some "stale"
  ∧ CurrentANGLE (final (ChangeANGLE in_order healthy (in_order ANGLE.D3D9) leftover))
    = ANGLE.Auto.
Proof.
  assert (openglCheckFilePath healthy ≠ angleBackendFilePath healthy) as Hne
    by discriminate.
  split; [exact Hne|].
  destruct (change_leaves_the_process_alone in_order healthy
              (in_order ANGLE.D3D9) leftover)
    as (Hcurrent & _ & _ & _ & _ & _ & Hfiles).
  split; [|exact Hcurrent].
  rewrite (Hfiles _ Hne). vm_compute; reflexivity.
Defined.

(** [ChangeANGLE] given 7 where the enumerators are numbered 0 to 4. *)
Lemma change_to_seven :
  (∀ a, 7 ≠ in_order a)
  ∧ ChangeANGLE in_order healthy 7 fresh
    = Dies (Unexpected "ANGLE backend value.") fresh.
Proof.
  assert (∀ a, 7 ≠ in_order a) as Hout by (by intros []).
  split; [exact Hout|].
  exact (proj1 (change_fails_exactly_outside_the_enumeration in_order healthy 7 fresh)
           Hout).
Defined.

Lemma in_order_inj a b : in_order a = in_order b → a = b.
Proof. by destruct a, b. Qed.

(** A change of preference on a disk that refuses to write the file. *)
Lemma change_on_a_locked_disk :
  angleBackendFilePath healthy ∈ unwritable (disk (start ∅ locked_preference))
  ∧ ChangeANGLE in_order healthy (in_order ANGLE.D3D11) (start ∅ locked_preference)
    = Returns tt
        (LOG (say1 "ANGLE Warning: Could not write to %1."
                (Str (angleBackendFilePath healthy)))
           (start ∅ locked_preference)).
Proof.
  assert (angleBackendFilePath healthy
            ∈ unwritable (disk (start ∅ locked_preference))) as Hdenied
    by (rewrite <-(bool_decide_eq_true _); vm_compute; reflexivity).
  split; [exact Hdenied|].
  exact (proj1 (refused_change_keeps_the_preference in_order healthy in_order_inj
                  ANGLE.D3D11 (start ∅ locked_preference))
           "d3d11" eq_refl (or_intror Hdenied)).
Defined.

(** D3D9 chosen, then OpenGL. *)
Lemma d3d9_then_gl :
  accessible (angleBackendFilePath healthy) (disk fresh) = true
  ∧ ∃ p1 p2, ChangeANGLE in_order healthy (in_order ANGLE.D3D9) fresh = Returns tt p1
             ∧ ChangeANGLE in_order healthy (in_order ANGLE.OpenGL) p1 = Returns tt p2
             ∧ files (disk p2) !! angleBackendFilePath healthy = Some "gl"
             ∧ CurrentANGLE (ConfigureANGLE healthy (next_run ∅ p2)) = ANGLE.OpenGL.
Proof.
  assert (accessible (angleBackendFilePath healthy) (disk fresh) = true) as Hacc
    by (vm_compute; reflexivity).
  split; [exact Hacc|].
  exact (the_last_change_wins in_order healthy in_order_inj
           ANGLE.D3D9 ANGLE.OpenGL fresh ∅ Hacc).
Defined.

(** The extension names of the display of [healthy]. *)
Lemma extension_names_of_healthy :
  platformNativeInterface healthy = true
  ∧ ∃ list, EGLExtensions healthy fresh = Returns list fresh
            ∧ String.concat " " list
              = "EGL_EXT_create_context_robustness EGL_KHR_create_context"
            ∧ Forall (λ name, " "%char ∉ String.list_ascii_of_string name) list.
Proof.
  split; [reflexivity|].
  exact (proj2 (proj2 (EGLExtensions_cuts_at_blanks healthy fresh))
           _ eq_refl eq_refl).
Defined.

(** * Rejected widgets *)

(** X16. A widget whose window has no handle and gets none, or whose
    window does not support OpenGL, ends a probe that is not
    force-disabled with the zero record before the bracket of the guard is
    opened: none of the calls around the risky step is made and the disk
    is as it was. *)
Theorem rejected_widget_skips_the_guard
    (s : System) (w : QWidget) (p : Process) :
  ForceDisabled p = false →
  windowHandle w || windowHandle_after_createWinId w = false
    ∨ supportsOpenGL w = false →
  ∃ p', CheckCapabilities s (Some w) p = Returns zero p'
        ∧ calls p' = calls p
        ∧ disk p' = disk p.
Proof.
  intros Hforce Hrejected. unfold CheckCapabilities, requested.
  rewrite Hforce.
  destruct (windowHandle w || windowHandle_after_createWinId w) eqn:Hwindow;
    simpl.
  - destruct Hrejected as [?| ->]; [done|]. simpl.
    eexists. split; [reflexivity|].
    by rewrite calls_LOG_ONCE, disk_LOG_ONCE, calls_BugListInited,
      disk_BugListInited.
  - eexists. split; [reflexivity|]. simpl.
    by rewrite calls_BugListInited, disk_BugListInited.
Qed.

(** The widget without window on the healthy machine. *)
Lemma windowless_widget_is_rejected :
  ForceDisabled fresh = false
  ∧ ∃ p', CheckCapabilities healthy (Some windowless) fresh = Returns zero p'
          ∧ calls p' = []
          ∧ disk p' = blank.
Proof.
  split; [reflexivity|].
  exact (rejected_widget_skips_the_guard healthy windowless fresh
           eq_refl (or_introl eq_refl)).
Defined.

(** * Where the stated properties stop *)

(** C8 as stated fails. In a process that resolved D3D9 at startup, a
    preference file whose content starts with no backend name leaves
    [CurrentANGLE] at D3D9, not [Auto], and [ConfigureANGLE] logs no
    warning. *)
Lemma resolved_backend_survives_an_unknown_token :
  QFile_open_ReadOnly (angleBackendFilePath healthy) (disk repinned)
  = Some "vulkan"
  ∧ (String.prefix "gl" "vulkan" = false
     ∧ String.prefix "d3d9" "vulkan" = false
     ∧ String.prefix "d3d11" "vulkan" = false
     ∧ String.prefix "d3d11on12" "vulkan" = false)
  ∧ CurrentANGLE (ConfigureANGLE healthy repinned) = ANGLE.D3D9
  ∧ log (ConfigureANGLE healthy repinned) = log repinned
  ∧ log (ConfigureANGLE healthy repinned) = [].
Proof.
  split; [by vm_compute|]. split; [by vm_compute|].
  split; [by vm_compute|]. split; by vm_compute.
Qed.

(** C9 as stated fails. Three operations end in a fault. On a Windows
    machine where Qt has no native interface, a probe that meets no
    failure condition ends the process in the assertion of
    [EGLExtensions]. On a machine whose [grabFramebuffer] throws, the
    exception leaves [CheckCapabilities] unhandled. And [ChangeANGLE]
    given 5, where the enumerators are numbered 0 to 4, ends the process
    in [Unexpected]. *)
Lemma faults_outside_the_failure_paths :
  (probe_fails headless None fresh = false
   ∧ CheckCapabilities headless None fresh
     = Dies (AssertFailed "native != nullptr")
         (final (CheckCapabilities headless None fresh)))
  ∧ CheckCapabilities (machine Throws) None fresh
    = Propagates (final (CheckCapabilities (machine Throws) None fresh))
  ∧ ChangeANGLE in_order healthy 5 fresh
    = Dies (Unexpected "ANGLE backend value.") fresh.
Proof.
  split; [split; by vm_compute|]. split; by vm_compute.
Qed.
